(** * Lobster CLI: mode adapter, resume path and workflows.run

    A shallow embedding of the command-line front end of the lobster
    pipeline shell ([runCli], [handleRun], [handleResume],
    [parseModeAndStrip], [writeToolEnvelope]) and of the [workflows.run]
    command, together with the properties the specification states
    about them. *)

From Stdlib Require Import ZArith List String Ascii Bool Lia.
From Stdlib Require Import DecimalString DecimalZ.
From stdpp Require Import base gmap strings.
Import ListNotations.

Local Open Scope string_scope.
Local Open Scope list_scope.
Local Open Scope Z_scope.

(** ** JSON values

    Items flowing between stages, envelopes and token payloads are JSON
    values.  Numbers are integers here; an object is the ordered list of
    its own properties. *)

Module Json.

Unset Elimination Schemes.
Inductive t : Type :=
| JNull
| JBool (b : bool)
| JNum (n : Z)
| JStr (s : string)
| JArr (xs : list t)
| JObj (kvs : list (string * t)).
Set Elimination Schemes.

(** Induction principle that reaches the elements of arrays and the
    property values of objects. *)
Definition t_ind (P : t -> Prop)
    (fnull : P JNull)
    (fbool : forall b, P (JBool b))
    (fnum : forall n, P (JNum n))
    (fstr : forall s, P (JStr s))
    (farr : forall xs, Forall P xs -> P (JArr xs))
    (fobj : forall kvs, Forall (fun kv => P (snd kv)) kvs -> P (JObj kvs)) :
    forall v, P v :=
  fix go (v : t) : P v :=
    match v with
    | JNull => fnull
    | JBool b => fbool b
    | JNum n => fnum n
    | JStr s => fstr s
    | JArr xs =>
        farr xs ((fix all (l : list t) : Forall P l :=
                    match l with
                    | [] => List.Forall_nil _
                    | x :: l' => @List.Forall_cons _ P x l' (go x) (all l')
                    end) xs)
    | JObj kvs =>
        fobj kvs ((fix all (l : list (string * t)) : Forall (fun kv => P (snd kv)) l :=
                     match l with
                     | [] => List.Forall_nil _
                     | kv :: l' => @List.Forall_cons _ (fun kv => P (snd kv)) kv l' (go (snd kv)) (all l')
                     end) kvs)
    end.

(** [o[k]] on an object literal: the value of own property [k], or
    [None] for JavaScript's [undefined]. *)
Fixpoint lookupProp (k : string) (kvs : list (string * t)) : option t :=
  match kvs with
  | [] => None
  | (k', v) :: rest => if String.eqb k' k then Some v else lookupProp k rest
  end.

(** [v?.k]: property access that tolerates [null]; numbers, booleans and
    arrays have no such own property, and the only keys looked up
    ([type], [items], [prompt]) are not properties of strings. *)
Definition get (v : t) (k : string) : option t :=
  match v with
  | JObj kvs => lookupProp k kvs
  | _ => None
  end.

(** Assignment [o[k] = v] on an ordered property list: an existing key
    keeps its position, a new key goes last. *)
Fixpoint setProp (k : string) (v : t) (kvs : list (string * t)) : list (string * t) :=
  match kvs with
  | [] => [(k, v)]
  | (k', v') :: rest =>
      if String.eqb k' k then (k', v) :: rest else (k', v') :: setProp k v rest
  end.

(** Nesting depth, the fuel the parser needs. *)
Fixpoint depth (v : t) : nat :=
  match v with
  | JArr xs => S (fold_right (fun x d => Nat.max (depth x) d) 0%nat xs)
  | JObj kvs => S (fold_right (fun kv d => Nat.max (depth (snd kv)) d) 0%nat kvs)
  | _ => 1%nat
  end.

(** *** Compact JSON text *)

Definition text := list ascii.

Definition dquote : ascii := "034"%char.
Definition backslash : ascii := "\"%char.

Fixpoint printChars (cs : list ascii) : text :=
  match cs with
  | [] => []
  | c :: rest =>
      if (Ascii.eqb c dquote || Ascii.eqb c backslash)%bool
      then backslash :: c :: printChars rest
      else c :: printChars rest
  end.

Definition printString (s : string) : text :=
  dquote :: printChars (list_ascii_of_string s) ++ [dquote].

Definition printNum (n : Z) : text :=
  list_ascii_of_string (NilZero.string_of_int (Z.to_int n)).

Definition lit (s : string) : text := list_ascii_of_string s.

Section PrintContainers.
Variable print : t -> text.

(** Elements of a non-empty array, up to and including the bracket. *)
Fixpoint printElems (l : list t) : text :=
  match l with
  | [] => ["]"%char]
  | [x] => print x ++ ["]"%char]
  | x :: l' => print x ++ ","%char :: printElems l'
  end.

Fixpoint printMembers (l : list (string * t)) : text :=
  match l with
  | [] => ["}"%char]
  | [(k, x)] => printString k ++ ":"%char :: print x ++ ["}"%char]
  | (k, x) :: l' =>
      printString k ++ ":"%char :: print x ++ ","%char :: printMembers l'
  end.
End PrintContainers.

Fixpoint print (v : t) : text :=
  match v with
  | JNull => lit "null"
  | JBool true => lit "true"
  | JBool false => lit "false"
  | JNum n => printNum n
  | JStr s => printString s
  | JArr xs => "["%char :: printElems print xs
  | JObj kvs => "{"%char :: printMembers print kvs
  end.

Definition stringify (v : t) : string := string_of_list_ascii (print v).

(** *** Parsing *)

Definition isNumChar (c : ascii) : bool :=
  (Ascii.eqb c "-"
   || ((48 <=? nat_of_ascii c)%nat && (nat_of_ascii c <=? 57)%nat))%bool.

Fixpoint spanNum (s : text) : text * text :=
  match s with
  | c :: rest =>
      if isNumChar c then let (ds, r) := spanNum rest in (c :: ds, r)
      else ([], s)
  | [] => ([], [])
  end.

(** The text after a number must not continue it. *)
Definition numStop (rest : text) : Prop :=
  match rest with
  | [] => True
  | c :: _ => isNumChar c = false
  end.

Definition parseNum (s : text) : option (Z * text) :=
  let (ds, rest) := spanNum s in
  match NilZero.int_of_string (string_of_list_ascii ds) with
  | Some d =>
      let n := Z.of_int d in
      if decide (printNum n = ds) then Some (n, rest) else None
  | None => None
  end.

(** Body of a string literal, after the opening quote. *)
Fixpoint parseChars (s : text) : option (list ascii * text) :=
  match s with
  | [] => None
  | c :: rest =>
      if Ascii.eqb c dquote then Some ([], rest)
      else if Ascii.eqb c backslash then
        match rest with
        | e :: rest' =>
            if (Ascii.eqb e dquote || Ascii.eqb e backslash)%bool then
              match parseChars rest' with
              | Some (cs, r) => Some (e :: cs, r)
              | None => None
              end
            else None
        | [] => None
        end
      else
        match parseChars rest with
        | Some (cs, r) => Some (c :: cs, r)
        | None => None
        end
  end.

Definition parseString (s : text) : option (string * text) :=
  match s with
  | c :: rest =>
      if Ascii.eqb c dquote then
        match parseChars rest with
        | Some (cs, r) => Some (string_of_list_ascii cs, r)
        | None => None
        end
      else None
  | [] => None
  end.

Section Containers.
(** The element parser one nesting level down. *)
Variable parseValue : text -> option (t * text).

(** Elements after the first one has been announced: [n] bounds the
    number of elements by the length of the text. *)
Fixpoint parseElems (n : nat) (s : text) : option (list t * text) :=
  match n with
  | O => None
  | S n' =>
      match parseValue s with
      | Some (x, r) =>
          match r with
          | c :: r' =>
              if Ascii.eqb c "]" then Some ([x], r')
              else if Ascii.eqb c "," then
                match parseElems n' r' with
                | Some (xs, r'') => Some (x :: xs, r'')
                | None => None
                end
              else None
          | [] => None
          end
      | None => None
      end
  end.

Fixpoint parseMembers (n : nat) (s : text) : option (list (string * t) * text) :=
  match n with
  | O => None
  | S n' =>
      match parseString s with
      | Some (k, r0) =>
          match r0 with
          | c0 :: r1 =>
              if Ascii.eqb c0 ":" then
                match parseValue r1 with
                | Some (x, r) =>
                    match r with
                    | c :: r' =>
                        if Ascii.eqb c "}" then Some ([(k, x)], r')
                        else if Ascii.eqb c "," then
                          match parseMembers n' r' with
                          | Some (kvs, r'') => Some ((k, x) :: kvs, r'')
                          | None => None
                          end
                        else None
                    | [] => None
                    end
                | None => None
                end
              else None
          | [] => None
          end
      | None => None
      end
  end.
End Containers.

(** [stripPrefix p s] is the rest of [s] after the literal [p]. *)
Fixpoint stripPrefix (p s : text) : option text :=
  match p, s with
  | [], _ => Some s
  | a :: p', b :: s' => if Ascii.eqb a b then stripPrefix p' s' else None
  | _ :: _, [] => None
  end.

Definition parseLit (p : string) (v : t) (s : text) : option (t * text) :=
  match stripPrefix (lit p) s with
  | Some r => Some (v, r)
  | None => None
  end.

Fixpoint parseValue (fuel : nat) (s : text) : option (t * text) :=
  match fuel with
  | O => None
  | S fuel' =>
      match s with
      | [] => None
      | c :: r =>
          if isNumChar c then
            match parseNum s with
            | Some (n, r') => Some (JNum n, r')
            | None => None
            end
          else if Ascii.eqb c dquote then
            match parseString s with
            | Some (str, r') => Some (JStr str, r')
            | None => None
            end
          else if Ascii.eqb c "[" then
            match stripPrefix (lit "]") r with
            | Some r' => Some (JArr [], r')
            | None =>
                match parseElems (parseValue fuel') (List.length r) r with
                | Some (xs, r') => Some (JArr xs, r')
                | None => None
                end
            end
          else if Ascii.eqb c "{" then
            match stripPrefix (lit "}") r with
            | Some r' => Some (JObj [], r')
            | None =>
                match parseMembers (parseValue fuel') (List.length r) r with
                | Some (kvs, r') => Some (JObj kvs, r')
                | None => None
                end
            end
          else if Ascii.eqb c "n" then parseLit "null" JNull s
          else if Ascii.eqb c "t" then parseLit "true" (JBool true) s
          else if Ascii.eqb c "f" then parseLit "false" (JBool false) s
          else None
      end
  end.

(** [JSON.parse]: the whole text must be one value.  Nesting is bounded
    by the length of the text. *)
Definition parse (s : string) : option t :=
  let cs := list_ascii_of_string s in
  match parseValue (S (List.length cs)) cs with
  | Some (v, []) => Some v
  | _ => None
  end.

End Json.

(** ** JavaScript helpers *)

Module Js.

(** A thrown value, seen through what the catch sites read of it:
    [err?.message] and [String(err)]. *)
Record Error : Type := { message : option string; asString : string }.

(** [new Error(msg)] *)
Definition mkError (msg : string) : Error :=
  {| message := Some msg; asString := "Error: " +:+ msg |}.

(** [err?.message ?? String(err)] *)
Definition messageOf (err : Error) : string :=
  match message err with
  | Some m => m
  | None => asString err
  end.

Definition Result (A : Type) : Type := Error + A.

Definition newline : string := String "010"%char EmptyString.

(** Truthiness of a possibly undefined string. *)
Definition truthy (s : option string) : bool :=
  match s with
  | Some s' => negb (String.eqb s' "")
  | None => false
  end.

(** [s.slice(n)] for [0 <= n]. *)
Fixpoint sliceString (n : nat) (s : string) : string :=
  match n, s with
  | O, _ => s
  | S n', String _ s' => sliceString n' s'
  | S _, EmptyString => EmptyString
  end.

(** [a.slice(start)] on an array, with JavaScript's treatment of a
    negative or too large start. *)
Definition slice {A : Type} (a : list A) (start : Z) : list A :=
  let len := Z.of_nat (List.length a) in
  let k := if start <? 0 then Z.max (len + start) 0 else Z.min start len in
  skipn (Z.to_nat k) a.

(** [a.join(sep)] on an array of strings. *)
Definition join (sep : string) (a : list string) : string := String.concat sep a.

End Js.

(** ** Object literals used as lookup tables *)

Module ObjectLiteral.

(** The properties every object literal inherits from
    [Object.prototype]. *)
Inductive Inherited : Type :=
| Constructor
| HasOwnProperty
| IsPrototypeOf
| PropertyIsEnumerable
| ToLocaleString
| ToString
| ValueOf
| DefineGetter
| DefineSetter
| LookupGetter
| LookupSetter
| Proto.

Definition inheritedNames : list (string * Inherited) :=
  [("constructor", Constructor);
   ("hasOwnProperty", HasOwnProperty);
   ("isPrototypeOf", IsPrototypeOf);
   ("propertyIsEnumerable", PropertyIsEnumerable);
   ("toLocaleString", ToLocaleString);
   ("toString", ToString);
   ("valueOf", ValueOf);
   ("__defineGetter__", DefineGetter);
   ("__defineSetter__", DefineSetter);
   ("__lookupGetter__", LookupGetter);
   ("__lookupSetter__", LookupSetter);
   ("__proto__", Proto)].

Fixpoint assoc {A : Type} (name : string) (table : list (string * A)) : option A :=
  match table with
  | [] => None
  | (k, a) :: rest => if String.eqb k name then Some a else assoc name rest
  end.

(** The member of [Object.prototype] of this name, if there is one. *)
Definition inherited (name : string) : option Inherited := assoc name inheritedNames.

(** [table[name]] on an object literal, given the own property of that
    name if there is one: the own property, else the inherited one, else
    [undefined]. *)
Definition get {A : Type} (own : option A) (name : string) : option (A + Inherited) :=
  match own with
  | Some a => Some (inl a)
  | None => option_map inr (inherited name)
  end.

End ObjectLiteral.

(** ** Effects

    A computation appends events to a log and either returns or throws. *)

Module Eff.
Section Monad.
Context {E : Type}.

Definition M (A : Type) : Type := list E -> list E * Js.Result A.

Definition ret {A} (a : A) : M A := fun log => (log, inr a).

Definition throw {A} (err : Js.Error) : M A := fun log => (log, inl err).

Definition bind {A B} (m : M A) (k : A -> M B) : M B :=
  fun log =>
    match m log with
    | (log', inr a) => k a log'
    | (log', inl err) => (log', inl err)
    end.

(** [try { body } catch (err) { handler }] *)
Definition tryCatch {A} (body : M A) (handler : Js.Error -> M A) : M A :=
  fun log =>
    match body log with
    | (log', inr a) => (log', inr a)
    | (log', inl err) => handler err log'
    end.

Definition emit (e : E) : M unit := fun log => (log ++ [e], inr tt).

Definition emitAll (es : list E) : M unit := fun log => (log ++ es, inr tt).

(** A call that may throw but has no effect of its own. *)
Definition lift {A} (r : Js.Result A) : M A := fun log => (log, r).

(** A whole run: the events logged from an empty log, and how the
    computation ends; [inl err] is an exception nobody caught. *)
Definition run {A} (m : M A) : list E * Js.Result A := m [].
Definition events {A} (m : M A) : list E := fst (run m).
Definition outcome {A} (m : M A) : Js.Result A := snd (run m).
End Monad.
Arguments M : clear implicits.
End Eff.

Declare Scope eff_scope.
Delimit Scope eff_scope with eff.
Notation "x <- c1 ;; c2" := (Eff.bind c1 (fun x => c2))
  (at level 100, c1 at next level, right associativity) : eff_scope.
Notation "c1 ;; c2" := (Eff.bind c1 (fun _ => c2))
  (at level 100, right associativity) : eff_scope.

(** ** Data model *)

Module Model.

(** An argument value is a raw string or a list of raw strings. *)
Inductive ArgValue : Type :=
| ArgStr (s : string)
| ArgList (l : list string).

Record Invocation : Type := { name : string; args : list (string * ArgValue) }.

Definition Pipeline : Type := list Invocation.

Record HaltState : Type := { index : Z }.

Record RunResult : Type := {
  items : list Json.t;
  rendered : bool;
  halted : bool;
  haltedAt : option HaltState
}.

(** The argument object of [runPipeline]; [input] is absent on a fresh
    run.  The standard streams and the environment are not modelled. *)
Record RunArgs : Type := {
  pipeline : Pipeline;
  mode : string;
  input : option (list Json.t)
}.

(** What a call of the engine does: the stages whose command it
    invoked, in order, and the value it returns or throws. *)
Definition Engine : Type := RunArgs -> list Invocation * Js.Result RunResult.

(** The object literal handed to [encodeToken]; [items] and [prompt]
    are whatever the approval item has under these keys. *)
Record TokenPayload : Type := {
  v : Z;
  tpPipeline : Pipeline;
  tpResumeAtIndex : Z;
  tpItems : option Json.t;
  tpPrompt : option Json.t
}.

(** A decoded, well-formed continuation. *)
Record ResumeContinuation : Type := {
  version : Z;
  rcPipeline : Pipeline;
  resumeAtIndex : Z;
  rcItems : list Json.t;
  prompt : string
}.

End Model.

(** ** Resume token codec *)

Module Token.
Import Json Model.

Definition argToJson (a : ArgValue) : Json.t :=
  match a with
  | ArgStr s => JStr s
  | ArgList l => JArr (map JStr l)
  end.

Definition invocationToJson (i : Invocation) : Json.t :=
  JObj [("name", JStr (name i));
        ("args", JObj (map (fun kv => (fst kv, argToJson (snd kv))) (args i)))].

Definition pipelineToJson (p : Pipeline) : Json.t := JArr (map invocationToJson p).

(** A property whose value is [undefined] is left out of the text. *)
Definition optField (k : string) (o : option Json.t) : list (string * Json.t) :=
  match o with
  | Some x => [(k, x)]
  | None => []
  end.

Definition payloadToJson (p : TokenPayload) : Json.t :=
  JObj ([("v", JNum (v p));
         ("pipeline", pipelineToJson (tpPipeline p));
         ("resumeAtIndex", JNum (tpResumeAtIndex p))]
        ++ optField "items" (tpItems p)
        ++ optField "prompt" (tpPrompt p)).

(** Modelled from the spec: [encodeToken] of token.js, which is not among
    the sources.  Section 4.4 asks for a versioned, self-describing
    encoding of the continuation into an opaque string and section 9
    names self-delimiting JSON; the token here is the compact JSON text
    of the payload object. *)
Definition encodeToken (p : TokenPayload) : string := stringify (payloadToJson p).

(** The continuation as the payload object [handleRun] builds for it. *)
Definition payloadOf (c : ResumeContinuation) : TokenPayload :=
  {| v := version c;
     tpPipeline := rcPipeline c;
     tpResumeAtIndex := resumeAtIndex c;
     tpItems := Some (JArr (rcItems c));
     tpPrompt := Some (JStr (prompt c)) |}.

Section Traverse.
Context {A B : Type} (f : A -> option B).
Fixpoint traverse (l : list A) : option (list B) :=
  match l with
  | [] => Some []
  | x :: l' =>
      match f x, traverse l' with
      | Some y, Some ys => Some (y :: ys)
      | _, _ => None
      end
  end.
End Traverse.

Definition stringOfJson (j : Json.t) : option string :=
  match j with
  | JStr s => Some s
  | _ => None
  end.

Definition argOfJson (j : Json.t) : option ArgValue :=
  match j with
  | JStr s => Some (ArgStr s)
  | JArr xs => option_map ArgList (traverse stringOfJson xs)
  | _ => None
  end.

Definition argEntryOfJson (kv : string * Json.t) : option (string * ArgValue) :=
  option_map (fun a => (fst kv, a)) (argOfJson (snd kv)).

Definition invocationOfJson (j : Json.t) : option Invocation :=
  match j with
  | JObj [(k1, JStr n); (k2, JObj kvs)] =>
      if (String.eqb k1 "name" && String.eqb k2 "args")%bool
      then option_map (fun a => {| name := n; args := a |}) (traverse argEntryOfJson kvs)
      else None
  | _ => None
  end.

Definition pipelineOfJson (j : Json.t) : option Pipeline :=
  match j with
  | JArr xs => traverse invocationOfJson xs
  | _ => None
  end.

Definition invalidToken : Js.Error := Js.mkError "Invalid token".
Definition unsupportedVersion : Js.Error := Js.mkError "Unsupported token version".
Definition missingToken : Js.Error := Js.mkError "Missing token".

Definition continuationOfJson (j : Json.t) : Js.Result ResumeContinuation :=
  match j with
  | JObj kvs =>
      match lookupProp "v" kvs with
      | Some (JNum 1) =>
          match lookupProp "pipeline" kvs, lookupProp "resumeAtIndex" kvs,
                lookupProp "items" kvs, lookupProp "prompt" kvs with
          | Some pj, Some (JNum k), Some (JArr xs), Some (JStr p) =>
              match pipelineOfJson pj with
              | Some pl =>
                  inr {| version := 1; rcPipeline := pl; resumeAtIndex := k;
                         rcItems := xs; prompt := p |}
              | None => inl invalidToken
              end
          | _, _, _, _ => inl invalidToken
          end
      | _ => inl unsupportedVersion
      end
  | _ => inl invalidToken
  end.

(** Modelled from the spec: [decodeResumeToken] of resume.js, which is
    not among the sources.  By sections 3, 4.4 and 7 decoding fails with
    a token error when the token is missing, when it is not decodable,
    and when its version is not recognised, and otherwise yields the
    whole continuation. *)
Definition decodeResumeToken (token : option string) : Js.Result ResumeContinuation :=
  match token with
  | None => inl missingToken
  | Some s =>
      match parse s with
      | Some j => continuationOfJson j
      | None => inl invalidToken
      end
  end.

End Token.

(** ** Runtime engine *)

Module Runtime.
Import Json Model.

(** What a command's [run] returns: its output stream, and whether it
    presented its result itself. *)
Record StageOutput : Type := { output : list Json.t; didRender : bool }.

Record Command : Type := {
  run : list Json.t -> list (string * ArgValue) -> Js.Result StageOutput
}.

(** [registry.get] *)
Definition Registry : Type := string -> option Command.

(** The halt check is structural: an object with [type],
    [items] and [prompt], [type] being the approval marker. *)
Definition isApprovalRequest (item : Json.t) : bool :=
  match get item "type", get item "items", get item "prompt" with
  | Some (JStr ty), Some _, Some _ => String.eqb ty "approval_request"
  | _, _, _ => false
  end.

Section Engine.
Variable registry : Registry.

(** Stages run strictly in order, each fed the previous output; a
    failing stage aborts the rest. *)
Fixpoint runStages (stages : Pipeline) (stream : list Json.t) (didR : bool)
    : list Invocation * Js.Result (list Json.t * bool) :=
  match stages with
  | [] => ([], inr (stream, didR))
  | stage :: rest =>
      match registry (name stage) with
      | None => ([], inl (Js.mkError ("Unknown command: " +:+ name stage)))
      | Some cmd =>
          match run cmd stream (args stage) with
          | inl err => ([stage], inl err)
          | inr out =>
              let (called, res) := runStages rest (output out) (didRender out) in
              (stage :: called, res)
          end
      end
  end.

(** Modelled from the spec: [runPipeline] of runtime.js, which is not
    among the sources, after the algorithm of section 4.3: start from
    the supplied input (default empty), run the stages in order, drain
    the last stream, and report a halt at the last stage when the sole
    drained item is an approval request. *)
Definition runPipeline : Engine :=
  fun a =>
    let start := match input a with Some xs => xs | None => [] end in
    match runStages (pipeline a) start false with
    | (called, inl err) => (called, inl err)
    | (called, inr (drained, didR)) =>
        let halt :=
          match drained with
          | [item] => isApprovalRequest item
          | _ => false
          end in
        (called,
         inr {| items := drained;
                rendered := didR;
                halted := halt;
                haltedAt :=
                  if halt
                  then Some {| index := Z.of_nat (List.length (pipeline a)) - 1 |}
                  else None |})
    end.
End Engine.

End Runtime.

(** ** The command-line front end *)

Module Cli.
Import Json Model.
Local Open Scope eff_scope.

(** What reaches standard output: the text [JSON.stringify(v, null, 2)]
    of a value, or a literal string. *)
Inductive Chunk : Type :=
| JsonText (v : Json.t)
| Text (s : string).

Inductive Event : Type :=
| Stdout (c : Chunk)           (* process.stdout.write *)
| Stderr (s : string)          (* process.stderr.write *)
| ExitCode (n : Z)             (* process.exitCode = n *)
| EngineCall (a : RunArgs)     (* runPipeline(a) was called *)
| StageRun (stage : Invocation) (* the engine invoked the stage's command *).

Definition M : Type -> Type := Eff.M Event.

Definition nl : string := Js.newline.
Definition dq : string := String dquote EmptyString.

Definition helpText : string :=
  "lobster (v0.1) — Clawdbot-native typed shell" +:+ nl +:+ nl +:+
  "Usage:" +:+ nl +:+
  "  lobster '<pipeline>'" +:+ nl +:+
  "  lobster run --mode tool '<pipeline>'" +:+ nl +:+
  "  lobster help <command>" +:+ nl +:+ nl +:+
  "Modes:" +:+ nl +:+
  "  - human (default): renderers can write to stdout" +:+ nl +:+
  "  - tool: prints a single JSON envelope for easy integration" +:+ nl +:+ nl +:+
  "Pipeline basics:" +:+ nl +:+
  "  - Commands are piped with |" +:+ nl +:+
  "  - Data is JSON-first (arrays/objects), not text-first" +:+ nl +:+
  "  - Most commands accept --flag value or --flag=value" +:+ nl +:+ nl +:+
  "Examples:" +:+ nl +:+
  "  lobster 'exec --json " +:+ dq +:+ "echo [1,2,3]" +:+ dq +:+ " | json'" +:+ nl +:+
  "  lobster 'gog.gmail.search --query " +:+ dq +:+ "newer_than:7d" +:+ dq +:+
    " --max 10 | pick id,subject,from | table'" +:+ nl +:+
  "  lobster run --mode tool 'exec --json " +:+ dq +:+ "echo [1]" +:+ dq +:+
    " | approve --prompt " +:+ dq +:+ "ok?" +:+ dq +:+ "'" +:+ nl +:+
  "  lobster resume --token <token> --approve yes" +:+ nl +:+
  nl +:+ "Commands:" +:+ nl +:+
  "  exec, head, json, pick, table, where, approve, gog.gmail.search, gog.gmail.send, email.triage, clawd.invoke" +:+ nl.

Definition writeToolEnvelope (payload : Json.t) : M unit :=
  Eff.emit (Stdout (JsonText payload));;
  Eff.emit (Stdout (Text nl)).

Definition setExitCode (n : Z) : M unit := Eff.emit (ExitCode n).

Fixpoint parseModeAndStrip_loop (argv : list string) (mode : string) (rest : list string)
    : string * list string :=
  match argv with
  | [] => (mode, rest)
  | tok :: argv' =>
      if String.eqb tok "--mode" then
        match argv' with
        | value :: argv'' =>
            if Js.truthy (Some value)
            then parseModeAndStrip_loop argv'' value rest
            else parseModeAndStrip_loop argv' mode rest
        | [] => parseModeAndStrip_loop argv' mode rest
        end
      else if String.prefix "--mode=" tok then
        let value := Js.sliceString 7 tok in
        parseModeAndStrip_loop argv' (if String.eqb value "" then "human" else value) rest
      else parseModeAndStrip_loop argv' mode (rest ++ [tok])
  end.

Definition parseModeAndStrip (argv : list string) : string * list string :=
  parseModeAndStrip_loop argv "human" [].

(** [{ ok: false, error: { type, message } }] *)
Definition errorEnvelope (type : string) (err : Js.Error) : Json.t :=
  JObj [("ok", JBool false);
        ("error", JObj [("type", JStr type); ("message", JStr (Js.messageOf err))])].

(** [{ ok: true, status: 'ok', output, requiresApproval: null }] *)
Definition okEnvelope (output : list Json.t) : Json.t :=
  JObj [("ok", JBool true); ("status", JStr "ok");
        ("output", JArr output); ("requiresApproval", JNull)].

(** [{ ok: true, status: 'needs_approval', output: [],
       requiresApproval: { ...approval, resumeToken } }] *)
Definition approvalEnvelope (approval : list (string * Json.t)) (resumeToken : string) : Json.t :=
  JObj [("ok", JBool true); ("status", JStr "needs_approval");
        ("output", JArr []);
        ("requiresApproval", JObj (setProp "resumeToken" (JStr resumeToken) approval))].

Definition cancelledEnvelope : Json.t :=
  JObj [("ok", JBool true); ("status", JStr "cancelled");
        ("output", JArr []); ("requiresApproval", JNull)].

(** [output.halted && output.items.length === 1 &&
     output.items[0]?.type === 'approval_request' ? output.items[0] : null],
    as the property list of the approval object. *)
Definition approvalOf (output : RunResult) : option (list (string * Json.t)) :=
  if halted output then
    match items output with
    | [JObj kvs] =>
        match lookupProp "type" kvs with
        | Some (JStr ty) => if String.eqb ty "approval_request" then Some kvs else None
        | _ => None
        end
    | _ => None
    end
  else None.

(** [(output.haltedAt?.index ?? -1) + 1] *)
Definition nextIndex (output : RunResult) : Z :=
  match haltedAt output with
  | Some h => index h
  | None => -1
  end + 1.

Section Collaborators.
(** The imports of the front end: parser.js, runtime.js, token.js,
    resume.js and the command registry. *)
Variable parsePipeline : string -> Js.Result Pipeline.
Variable runPipeline : Engine.
Variable encodeToken : TokenPayload -> string.
Variable parseResumeArgs : list string -> Js.Result (option string * bool).
Variable decodeResumeToken : option string -> Js.Result ResumeContinuation.
(** [registry.get(topic)?.help()] of the default registry. *)
Variable commandHelp : string -> option string.

(** [await runPipeline({...})]: the call and the stages it invokes
    are logged. *)
Definition callEngine (a : RunArgs) : M RunResult :=
  let (called, res) := runPipeline a in
  Eff.emit (EngineCall a);;
  Eff.emitAll (map StageRun called);;
  Eff.lift res.

(** The tool-mode tail shared by both handlers: a sole approval item
    yields a resume token, anything else the ok envelope. *)
Definition reportToolResult (pl : Pipeline) (output : RunResult) : M unit :=
  match approvalOf output with
  | Some approval =>
      let resumeToken :=
        encodeToken {| v := 1;
                       tpPipeline := pl;
                       tpResumeAtIndex := nextIndex output;
                       tpItems := lookupProp "items" approval;
                       tpPrompt := lookupProp "prompt" approval |} in
      writeToolEnvelope (approvalEnvelope approval resumeToken)
  | None => writeToolEnvelope (okEnvelope (items output))
  end.

Definition handleRun (argv : list string) : M unit :=
  let (mode, rest) := parseModeAndStrip argv in
  let pipelineString := Js.join " " rest in
  match parsePipeline pipelineString with
  | inl err =>
      if String.eqb mode "tool" then
        writeToolEnvelope (errorEnvelope "parse_error" err);;
        setExitCode 2
      else
        Eff.emit (Stderr ("Parse error: " +:+ Js.messageOf err +:+ nl));;
        setExitCode 2
  | inr pl =>
      Eff.tryCatch
        (output <- callEngine {| pipeline := pl; mode := mode; input := None |};;
         if String.eqb mode "tool" then reportToolResult pl output
         else
           (* Human mode: if the last command didn't render, print JSON. *)
           if negb (rendered output) then
             Eff.emit (Stdout (JsonText (JArr (items output))));;
             Eff.emit (Stdout (Text nl))
           else Eff.ret tt)
        (fun err =>
           if String.eqb mode "tool" then
             writeToolEnvelope (errorEnvelope "runtime_error" err);;
             setExitCode 1
           else
             Eff.emit (Stderr ("Error: " +:+ Js.messageOf err +:+ nl));;
             setExitCode 1)
  end.

Definition handleResume (argv : list string) : M unit :=
  let mode := "tool" in
  parsed <- Eff.lift (parseResumeArgs argv);;
  let (token, approved) := parsed : option string * bool in
  payload <- Eff.lift (decodeResumeToken token);;
  if negb approved then writeToolEnvelope cancelledEnvelope
  else
    let remaining := Js.slice (rcPipeline payload) (resumeAtIndex payload) in
    let input := rcItems payload in
    Eff.tryCatch
      (output <- callEngine {| pipeline := remaining; mode := mode; input := Some input |};;
       reportToolResult remaining output)
      (fun err =>
         writeToolEnvelope (errorEnvelope "runtime_error" err);;
         setExitCode 1).

Definition includes (x : string) (a : list string) : bool := existsb (String.eqb x) a.

Definition runCli (argv : list string) : M unit :=
  match argv with
  | [] => Eff.emit (Stdout (Text helpText))
  | cmd :: args =>
      if (includes "-h" argv || includes "--help" argv)%bool
      then Eff.emit (Stdout (Text helpText))
      else if String.eqb cmd "help" then
        match args with
        | topic :: _ =>
            if Js.truthy (Some topic) then
              match commandHelp topic with
              | Some help => Eff.emit (Stdout (Text help))
              | None =>
                  Eff.emit (Stderr ("Unknown command: " +:+ topic +:+ nl));;
                  setExitCode 2
              end
            else Eff.emit (Stdout (Text helpText))
        | [] => Eff.emit (Stdout (Text helpText))
        end
      else if String.eqb cmd "run" then handleRun args
      else if String.eqb cmd "resume" then handleResume args
      else
        (* Default: treat argv as a pipeline string. *)
        handleRun argv
  end.
End Collaborators.

End Cli.

(** ** The workflows.run command *)

Module WorkflowsRun.
Import Json.
Local Open Scope eff_scope.

(** The parsed arguments the command reads: [args.name], the positional
    list [args._] and [args['args-json']]. *)
Record Args : Type := {
  name : option string;
  positional : list string;
  argsJson : option string
}.

Inductive Event : Type :=
| Pull (item : Json.t)                              (* one item taken from the input *)
| RunnerCall (workflow : string) (workflowArgs : Json.t) (* a runner was invoked *).

Definition M : Type -> Type := Eff.M Event.

Definition asStream (items : list Json.t) : list Json.t := items.

Section Command.
Variable Ctx : Type.
(** The entries of workflows/registry.js, which is imported: an object
    literal, here by its own keys. *)
Variable Meta : Type.
Variable workflowRegistry : gmap string Meta.

(** [runner({ args, ctx })] *)
Definition Runner : Type := Json.t -> Ctx -> Js.Result Json.t.

Variable runEmailTriageWorkflow : Runner.
Variable runGithubPrMonitorWorkflow : Runner.
Variable runGithubPrMonitorNotifyWorkflow : Runner.

(** The built-in [JSON.parse]; [None] stands for its [SyntaxError]. *)
Variable JSON_parse : string -> option Json.t.

(** What a member of [Object.prototype] does when it is called the way
    a runner is, as a plain function on [{ args, ctx }]. *)
Variable callInherited : ObjectLiteral.Inherited -> Runner.

(** The own keys of the runner table. *)
Definition runners : gmap string Runner :=
  {[ "email.triage" := runEmailTriageWorkflow;
     "github.pr.monitor" := runGithubPrMonitorWorkflow;
     "github.pr.monitor.notify" := runGithubPrMonitorNotifyWorkflow ]}.

(** [runner({ args, ctx })] for what [runners[name]] gave: a runner of
    the table, or a member of [Object.prototype]. *)
Definition call (runner : Runner + ObjectLiteral.Inherited) : Runner :=
  match runner with
  | inl own => own
  | inr member => callInherited member
  end.

(** [args.name ?? args._[0]] *)
Definition nameOf (args : Args) : option string :=
  match name args with
  | Some n => Some n
  | None => head (positional args)
  end.

Definition run (input : list Json.t) (args : Args) (ctx : Ctx) : M (list Json.t) :=
  (* Drain input. *)
  Eff.emitAll (map Pull input);;
  let name := nameOf args in
  if negb (Js.truthy name) then Eff.throw (Js.mkError "workflows.run requires --name")
  else
    let name := default "" name in
    match ObjectLiteral.get (workflowRegistry !! name) name with
    | None => Eff.throw (Js.mkError ("Unknown workflow: " +:+ name))
    | Some meta =>
        match ObjectLiteral.get (runners !! name) name with
        | None => Eff.throw (Js.mkError ("Workflow runner not implemented: " +:+ name))
        | Some runner =>
            workflowArgs <-
              (if Js.truthy (argsJson args) then
                 match JSON_parse (default "" (argsJson args)) with
                 | Some parsed => Eff.ret parsed
                 | None => Eff.throw (Js.mkError "workflows.run --args-json must be valid JSON")
                 end
               else Eff.ret (JObj []));;
            Eff.emit (RunnerCall name workflowArgs);;
            result <- Eff.lift (call runner workflowArgs ctx);;
            Eff.ret (asStream [result])
        end
    end.
End Command.

End WorkflowsRun.

(** ** Reading a log *)

Module Trace.
Import Json Model Cli.

(** What was written to standard output, in order. *)
Fixpoint stdoutOf (es : list Event) : list Chunk :=
  match es with
  | [] => []
  | Stdout c :: es' => c :: stdoutOf es'
  | _ :: es' => stdoutOf es'
  end.

(** A write of one JSON object. *)
Definition isJsonObject (c : Chunk) : bool :=
  match c with
  | JsonText (JObj _) => true
  | _ => false
  end.

Definition jsonObjectsWritten (es : list Event) : nat :=
  List.length (List.filter isJsonObject (stdoutOf es)).

(** The stages whose command ran, in order. *)
Fixpoint stagesRun (es : list Event) : list Invocation :=
  match es with
  | [] => []
  | StageRun st :: es' => st :: stagesRun es'
  | _ :: es' => stagesRun es'
  end.

(** The calls of the engine, in order. *)
Fixpoint engineCalls (es : list Event) : list RunArgs :=
  match es with
  | [] => []
  | EngineCall a :: es' => a :: engineCalls es'
  | _ :: es' => engineCalls es'
  end.

End Trace.

(** ** The specification's concrete scenario

    Stand-ins for the collaborators that are not part of the sources,
    cut down to the scenario of section 8, on which the statements below
    are instantiated. *)

Module Scenario.
Import Json Model.

Definition execStage : Invocation :=
  {| name := "exec"; args := [("json", ArgStr "echo [1]")] |}.
Definition approveStage : Invocation :=
  {| name := "approve"; args := [("prompt", ArgStr "ok?")] |}.
Definition jsonStage : Invocation := {| name := "json"; args := [] |}.

(** [exec --json "echo [1]" | approve --prompt "ok?"] *)
Definition pipelineText : string :=
  "exec --json " +:+ Cli.dq +:+ "echo [1]" +:+ Cli.dq +:+
  " | approve --prompt " +:+ Cli.dq +:+ "ok?" +:+ Cli.dq.

(** The parser on the scenario's pipeline string; this stand-in knows
    no other string. *)
Definition parsePipeline (s : string) : Js.Result Pipeline :=
  if String.eqb s pipelineText then inr [execStage; approveStage]
  else inl (Js.mkError "Unexpected token").

(** [exec] yields the decoded output of its command. *)
Definition execCommand : Runtime.Command :=
  {| Runtime.run := fun _ _ => inr {| Runtime.output := [JNum 1]; Runtime.didRender := false |} |}.

(** [approve] wraps its input in an approval request. *)
Definition approveCommand : Runtime.Command :=
  {| Runtime.run := fun input args =>
       let prompt :=
         match List.find (fun kv => String.eqb (fst kv) "prompt") args with
         | Some (_, ArgStr p) => p
         | _ => "Approve?"
         end in
       inr {| Runtime.output :=
                [JObj [("type", JStr "approval_request");
                       ("items", JArr input);
                       ("prompt", JStr prompt)]];
              Runtime.didRender := false |} |}.

(** [json] passes its input on. *)
Definition jsonCommand : Runtime.Command :=
  {| Runtime.run := fun input _ => inr {| Runtime.output := input; Runtime.didRender := false |} |}.

(** [fail] always throws. *)
Definition failCommand : Runtime.Command :=
  {| Runtime.run := fun _ _ => inl (Js.mkError "boom") |}.

Definition registry : Runtime.Registry :=
  fun name =>
    if String.eqb name "exec" then Some execCommand
    else if String.eqb name "approve" then Some approveCommand
    else if String.eqb name "json" then Some jsonCommand
    else if String.eqb name "fail" then Some failCommand
    else None.

Definition runPipeline : Engine := Runtime.runPipeline registry.

(** [resume --token <token> --approve yes] *)
Fixpoint parseResumeArgs_loop (argv : list string) (token : option string) (approved : bool)
    : option string * bool :=
  match argv with
  | [] => (token, approved)
  | flag :: argv' =>
      match argv' with
      | value :: argv'' =>
          if String.eqb flag "--token" then parseResumeArgs_loop argv'' (Some value) approved
          else if String.eqb flag "--approve"
               then parseResumeArgs_loop argv'' token (String.eqb value "yes")
               else parseResumeArgs_loop argv' token approved
      | [] => (token, approved)
      end
  end.

Definition parseResumeArgs (argv : list string) : Js.Result (option string * bool) :=
  inr (parseResumeArgs_loop argv None false).

Definition commandHelp (topic : string) : option string := None.

(** A continuation halted after the second of three stages. *)
Definition continuation : ResumeContinuation :=
  {| version := 1;
     rcPipeline := [execStage; approveStage; jsonStage];
     resumeAtIndex := 2;
     rcItems := [JNum 1];
     prompt := "ok?" |}.

Definition token : string := Token.encodeToken (Token.payloadOf continuation).

(** The approval request the scenario halts on, and the run result
    that carries it. *)
Definition approval : list (string * Json.t) :=
  [("type", JStr "approval_request"); ("items", JArr [JNum 1]); ("prompt", JStr "ok?")].

Definition haltedResult : RunResult :=
  {| items := [JObj approval];
     rendered := false;
     halted := true;
     haltedAt := Some {| index := 1 |} |}.

(** [lobster run --mode tool '<pipeline>'], [lobster '<pipeline>'] and
    the two resumes, after the subcommand. *)
Definition toolArgv : list string := ["--mode"; "tool"; pipelineText].
Definition humanArgv : list string := [pipelineText].
Definition approveArgv : list string := ["--token"; token; "--approve"; "yes"].
Definition declineArgv : list string := ["--token"; token; "--approve"; "no"].

(** A workflow registry with one entry, and a runner that returns the
    arguments it was given, for [workflows.run]. *)
Definition workflowRegistry : gmap string unit := {[ "email.triage" := tt ]}.
Definition workflowRunner : WorkflowsRun.Runner unit :=
  fun workflowArgs _ => inr (JArr [workflowArgs]).

(** [new TypeError(msg)] *)
Definition typeError (msg : string) : Js.Error :=
  {| Js.message := Some msg; Js.asString := "TypeError: " +:+ msg |}.

(** The members of [Object.prototype] called as plain functions on
    [{ args, ctx }], the context being an empty object: [Object] returns
    its argument, [toString] names its receiver, which is undefined,
    [__proto__] is not a function, and the others refuse an undefined
    receiver. *)
Definition callInherited (member : ObjectLiteral.Inherited) : WorkflowsRun.Runner unit :=
  fun workflowArgs _ =>
    match member with
    | ObjectLiteral.Constructor => inr (JObj [("args", workflowArgs); ("ctx", JObj [])])
    | ObjectLiteral.ToString => inr (JStr "[object Undefined]")
    | ObjectLiteral.Proto => inl (typeError "runner is not a function")
    | _ => inl (typeError "Cannot convert undefined or null to object")
    end.

End Scenario.

(** ** The clawd.invoke command *)

Module ClawdInvoke.
Import Json.
Local Open Scope eff_scope.

(** The parsed arguments the command reads. *)
Record Args : Type := {
  url : option string;
  tool : option string;
  action : option string;
  token : option string;
  argsJson : option string
}.

(** [ctx.env], as far as the command looks into it. *)
Record Env : Type := {
  CLAWD_URL : option string;
  CLAWD_TOKEN : option string
}.

(** The request handed to [fetch]; [body] is the value whose
    [JSON.stringify] text is sent. *)
Record Request : Type := {
  endpoint : string;
  method : string;
  headers : list (string * string);
  body : Json.t
}.

(** What the command reads of the response: [res.ok], [res.status] and
    [await res.text()]. *)
Record Response : Type := {
  resOk : bool;
  resStatus : Z;
  resText : Js.Result string
}.

Inductive Event : Type :=
| Pull (item : Json.t)      (* one item taken from the input *)
| Fetch (request : Request) (* fetch was called *).

Definition M : Type -> Type := Eff.M Event.

Definition asStream (items : list Json.t) : list Json.t := items.

(** [a ?? b ?? ''] on possibly undefined strings. *)
Definition orElse (a b : option string) : string :=
  match a with
  | Some x => x
  | None => match b with Some y => y | None => "" end
  end.

(** The decimal text of [res.status] in a template string. *)
Definition showStatus (n : Z) : string := NilZero.string_of_int (Z.to_int n).

(** [Array.isArray(parsed) ? parsed : [parsed]] *)
Definition itemsOf (parsed : Json.t) : list Json.t :=
  match parsed with
  | JArr xs => xs
  | _ => [parsed]
  end.

Section Command.
(** The built-ins the command calls: [String.prototype.trim],
    [new URL(path, base)], [fetch] and [JSON.parse]. *)
Variable trim : string -> string.
Variable newURL : string -> string -> Js.Result string.
Variable fetch : Request -> Js.Result Response.
Variable JSON_parse : string -> option Json.t.

Definition run (input : list Json.t) (args : Args) (env : Env) : M (list Json.t) :=
  (* Drain input: for now we don't stream input into clawd calls. *)
  Eff.emitAll (map Pull input);;
  let url := trim (orElse (url args) (CLAWD_URL env)) in
  if String.eqb url "" then Eff.throw (Js.mkError "clawd.invoke requires --url or CLAWD_URL")
  else
    if (negb (Js.truthy (tool args)) || negb (Js.truthy (action args)))%bool
    then Eff.throw (Js.mkError "clawd.invoke requires --tool and --action")
    else
      let token := trim (orElse (token args) (CLAWD_TOKEN env)) in
      toolArgs <-
        (if Js.truthy (argsJson args) then
           match JSON_parse (default "" (argsJson args)) with
           | Some parsed => Eff.ret parsed
           | None => Eff.throw (Js.mkError "clawd.invoke --args-json must be valid JSON")
           end
         else Eff.ret (JObj []));;
      endpoint <- Eff.lift (newURL "/tools/invoke" url);;
      let request :=
        {| endpoint := endpoint;
           method := "POST";
           headers :=
             ("content-type", "application/json") ::
             (if String.eqb token "" then [] else [("authorization", "Bearer " +:+ token)]);
           body := JObj [("tool", JStr (default "" (tool args)));
                         ("action", JStr (default "" (action args)));
                         ("args", toolArgs)] |} in
      Eff.emit (Fetch request);;
      res <- Eff.lift (fetch request);;
      text <- Eff.lift (resText res);;
      if negb (resOk res) then
        Eff.throw (Js.mkError ("clawd.invoke failed (" +:+ showStatus (resStatus res) +:+ "): "
                               +:+ String.substring 0 400 text))
      else
        parsed <-
          (if String.eqb text "" then Eff.ret JNull
           else
             match JSON_parse text with
             | Some parsed => Eff.ret parsed
             | None => Eff.throw (Js.mkError "clawd.invoke expected JSON response")
             end);;
        Eff.ret (asStream (itemsOf parsed)).
End Command.

End ClawdInvoke.

(** ** The recipe registry *)

Module Recipes.
Import Json.

(** [fn.meta] of a recipe function; a field is [None] when it is
    undefined. *)
Record Meta : Type := {
  description : option Json.t;
  requires : option Json.t;
  args : option Json.t
}.

(** A recipe function, by the one property the registry reads. *)
Record Recipe : Type := { meta : option Meta }.

(** An entry of [listRecipes()]. *)
Record Listing : Type := {
  name : string;
  lDescription : Json.t;
  lRequires : Json.t;
  lArgs : Json.t
}.

(** [x ?? d]: the default replaces [undefined] and [null]. *)
Definition orDefault (x : option Json.t) (d : Json.t) : Json.t :=
  match x with
  | None | Some JNull => d
  | Some y => y
  end.

(** [meta.field] with [meta = fn.meta ?? {}]. *)
Definition field (f : Meta -> option Json.t) (fn : Recipe) : option Json.t :=
  match meta fn with
  | Some m => f m
  | None => None
  end.

Section Registry.
(** The recipes of github/pr-monitor.js, which is imported. *)
Variable prMonitor : Recipe.
Variable prMonitorNotify : Recipe.

(** The table in the order it is written, which is the order
    [Object.entries] enumerates it in. *)
Definition recipes : list (string * Recipe) :=
  [("github.pr.monitor", prMonitor);
   ("github.pr.monitor.notify", prMonitorNotify)].

Definition listRecipes : list Listing :=
  map (fun entry : string * Recipe =>
         let (name, fn) := entry in
         {| name := name;
            lDescription := orDefault (field description fn) (JStr "");
            lRequires := orDefault (field requires fn) (JArr []);
            lArgs := orDefault (field args fn) (JObj []) |})
      recipes.

(** The own property of the table with this name. *)
Fixpoint lookupRecipe (name : string) (table : list (string * Recipe)) : option Recipe :=
  match table with
  | [] => None
  | (k, fn) :: rest => if String.eqb k name then Some fn else lookupRecipe name rest
  end.

(** [recipes[name]] *)
Definition getRecipe (name : string) : option (Recipe + ObjectLiteral.Inherited) :=
  ObjectLiteral.get (lookupRecipe name recipes) name.
End Registry.

End Recipes.

(** ** Sample inputs for the commands *)

Module Samples.
Import Json.

(** [trim] on the ASCII white space. *)
Definition isSpace (c : ascii) : bool :=
  let n := nat_of_ascii c in
  ((n =? 32) || ((9 <=? n) && (n <=? 13)))%nat%bool.

Fixpoint trimStart (cs : list ascii) : list ascii :=
  match cs with
  | c :: rest => if isSpace c then trimStart rest else cs
  | [] => []
  end.

Definition trim (s : string) : string :=
  string_of_list_ascii
    (rev (trimStart (rev (trimStart (list_ascii_of_string s))))).

(** [new URL(path, base)] for a base without a path. *)
Definition newURL (path base : string) : Js.Result string := inr (base +:+ path).

(** A server that answers every request with the same response. *)
Definition respond (status : Z) (text : string) (request : ClawdInvoke.Request)
    : Js.Result ClawdInvoke.Response :=
  inr {| ClawdInvoke.resOk := (200 <=? status) && (status <? 300);
         ClawdInvoke.resStatus := status;
         ClawdInvoke.resText := inr text |}.

Definition invokeArgs : ClawdInvoke.Args :=
  {| ClawdInvoke.url := None;
     ClawdInvoke.tool := Some "message";
     ClawdInvoke.action := Some "send";
     ClawdInvoke.token := None;
     ClawdInvoke.argsJson := Some "{}" |}.

Definition invokeEnv : ClawdInvoke.Env :=
  {| ClawdInvoke.CLAWD_URL := Some "http://localhost:3000";
     ClawdInvoke.CLAWD_TOKEN := Some "secret" |}.

Definition noEnv : ClawdInvoke.Env :=
  {| ClawdInvoke.CLAWD_URL := None; ClawdInvoke.CLAWD_TOKEN := None |}.

(** An engine that fails on every pipeline. *)
Definition failingEngine : Model.Engine :=
  fun a => ([], inl (Js.mkError "boom")).

(** An engine that runs every stage and returns two items, and one
    that halts on the scenario's approval request. *)
Definition plainResult : Model.RunResult :=
  {| Model.items := [JNum 1; JNum 2];
     Model.rendered := false;
     Model.halted := false;
     Model.haltedAt := None |}.
Definition plainEngine : Model.Engine := fun a => (Model.pipeline a, inr plainResult).
Definition haltingEngine : Model.Engine :=
  fun a => (Model.pipeline a, inr Scenario.haltedResult).

(** A continuation halted after the first of three stages, and the one
    a resume of it writes when it halts after the next. *)
Definition earlierContinuation : Model.ResumeContinuation :=
  {| Model.version := 1;
     Model.rcPipeline := [Scenario.approveStage; Scenario.approveStage; Scenario.jsonStage];
     Model.resumeAtIndex := 1;
     Model.rcItems := [JNum 1];
     Model.prompt := "ok?" |}.
Definition laterContinuation : Model.ResumeContinuation :=
  {| Model.version := 1;
     Model.rcPipeline := [Scenario.approveStage; Scenario.jsonStage];
     Model.resumeAtIndex := 1;
     Model.rcItems := [JNum 1];
     Model.prompt := "ok?" |}.
Definition laterArgv : list string :=
  ["--token"; Token.encodeToken (Token.payloadOf laterContinuation); "--approve"; "yes"].

(** The request [clawd.invoke] sends for [invokeArgs] and [invokeEnv]. *)
Definition invokeRequest : ClawdInvoke.Request :=
  {| ClawdInvoke.endpoint := "http://localhost:3000/tools/invoke";
     ClawdInvoke.method := "POST";
     ClawdInvoke.headers :=
       [("content-type", "application/json"); ("authorization", "Bearer secret")];
     ClawdInvoke.body :=
       JObj [("tool", JStr "message"); ("action", JStr "send"); ("args", JObj [])] |}.

End Samples.

(** * Properties *)

(** ** The JSON text round trip *)

Module JsonFacts.
Import Json.

Lemma parseChars_printChars (cs : list ascii) (rest : text) :
  parseChars (printChars cs ++ dquote :: rest) = Some (cs, rest).
Proof.
  induction cs as [|c cs IH]; [reflexivity|].
  cbn [printChars].
  destruct (Ascii.eqb c dquote) eqn:Hq; cbn [orb].
  - cbn. rewrite Hq. cbn. now rewrite IH.
  - destruct (Ascii.eqb c backslash) eqn:Hb.
    + cbn. rewrite Hq, Hb. cbn. now rewrite IH.
    + cbn. rewrite Hq, Hb. now rewrite IH.
Qed.

Lemma parseString_printString (s : string) (rest : text) :
  parseString (printString s ++ rest) = Some (s, rest).
Proof.
  unfold printString, parseString. cbn.
  rewrite <- app_assoc. cbn.
  rewrite parseChars_printChars.
  now rewrite string_of_list_ascii_of_string.
Qed.

Lemma uint_chars (d : Decimal.uint) :
  Forall (fun c => isNumChar c = true)
         (list_ascii_of_string (NilEmpty.string_of_uint d)).
Proof.
  induction d; cbn; constructor; solve [reflexivity | assumption].
Qed.

Lemma printNum_chars (n : Z) : Forall (fun c => isNumChar c = true) (printNum n).
Proof.
  unfold printNum.
  assert (H : forall d, Forall (fun c => isNumChar c = true)
                          (list_ascii_of_string (NilZero.string_of_uint d))).
  { intros d. destruct d; try apply uint_chars.
    cbn. constructor; [reflexivity | constructor]. }
  destruct (Z.to_int n) as [d|d]; cbn.
  - apply H.
  - constructor; [reflexivity | apply H].
Qed.

Lemma to_int_proper (n : Z) :
  Z.to_int n <> Decimal.Pos Decimal.Nil /\ Z.to_int n <> Decimal.Neg Decimal.Nil.
Proof.
  assert (Hp : forall p, Pos.to_uint p <> Decimal.Nil).
  { intros p Hnil.
    pose proof (DecimalPos.Unsigned.of_to p) as Hof.
    rewrite Hnil in Hof. discriminate Hof. }
  destruct n as [|p|p]; cbn; split; try discriminate;
    intros Heq; injection Heq; apply Hp.
Qed.

Lemma printNum_nonempty (n : Z) : printNum n <> [].
Proof.
  unfold printNum. intros Hnil.
  destruct (to_int_proper n) as [Hpos Hneg].
  pose proof (NilZero.isi (Z.to_int n) Hpos Hneg) as Hisi.
  destruct (NilZero.string_of_int (Z.to_int n)); [discriminate Hisi | discriminate Hnil].
Qed.

Lemma spanNum_app (ds rest : text) :
  Forall (fun c => isNumChar c = true) ds -> numStop rest ->
  spanNum (ds ++ rest) = (ds, rest).
Proof.
  intros Hds Hrest. induction Hds as [|c ds Hc _ IH]; cbn [app spanNum].
  - destruct rest as [|c rest]; [reflexivity|].
    cbn [numStop] in Hrest. cbn [spanNum]. now rewrite Hrest.
  - now rewrite Hc, IH.
Qed.

Lemma parseNum_printNum (n : Z) (rest : text) :
  numStop rest -> parseNum (printNum n ++ rest) = Some (n, rest).
Proof.
  intros Hrest. unfold parseNum.
  rewrite (spanNum_app _ _ (printNum_chars n) Hrest).
  unfold printNum at 1.
  rewrite string_of_list_ascii_of_string.
  destruct (to_int_proper n) as [Hpos Hneg].
  rewrite (NilZero.isi _ Hpos Hneg).
  rewrite DecimalZ.of_to.
  destruct (decide (printNum n = printNum n)); [reflexivity | contradiction].
Qed.

Lemma numChar_not_bracket (c : ascii) :
  isNumChar c = true -> Ascii.eqb "]" c = false.
Proof.
  intros Hc. destruct (Ascii.eqb_spec "]"%char c) as [<-|]; [discriminate Hc | reflexivity].
Qed.

(** No value starts with a closing bracket. *)
Lemma print_head (v : t) :
  exists c tl, print v = c :: tl /\ Ascii.eqb "]" c = false.
Proof.
  destruct v as [|b|n|s|xs|kvs]; cbn [print].
  - now eexists _, _.
  - destruct b; now eexists _, _.
  - pose proof (printNum_chars n) as Hcs. pose proof (printNum_nonempty n) as Hne.
    destruct (printNum n) as [|c tl]; [contradiction|].
    exists c, tl. split; [reflexivity|].
    apply numChar_not_bracket. now inversion Hcs.
  - now eexists _, _.
  - now eexists _, _.
  - now eexists _, _.
Qed.

Lemma stripBracket_print (v : t) (rest : text) :
  stripPrefix (lit "]") (print v ++ rest) = None.
Proof.
  destruct (print_head v) as (c & tl & -> & Hc).
  unfold lit. cbn [list_ascii_of_string stripPrefix app]. now rewrite Hc.
Qed.

Lemma printElems_length (xs : list t) :
  (List.length xs <= List.length (printElems print xs))%nat.
Proof.
  induction xs as [|x xs IH]; cbn [printElems]; [cbn; lia|].
  destruct xs as [|y xs].
  - rewrite length_app. cbn. lia.
  - rewrite length_app. cbn [List.length] in *. lia.
Qed.

Lemma printMembers_length (kvs : list (string * t)) :
  (List.length kvs <= List.length (printMembers print kvs))%nat.
Proof.
  induction kvs as [|[k x] kvs IH]; cbn [printMembers]; [cbn; lia|].
  destruct kvs as [|kv kvs].
  - rewrite length_app. cbn. lia.
  - rewrite length_app. cbn [List.length] in *. rewrite length_app. cbn [List.length]. lia.
Qed.

Section Containers.
Variable pv : text -> option (t * text).

Lemma parseElems_printElems (xs : list t) :
  Forall (fun x => forall rest, numStop rest -> pv (print x ++ rest) = Some (x, rest)) xs ->
  xs <> [] ->
  forall n rest, (List.length xs <= n)%nat ->
    parseElems pv n (printElems print xs ++ rest) = Some (xs, rest).
Proof.
  induction 1 as [|x xs Hx Hxs IH]; [contradiction|].
  intros _ n rest Hn.
  destruct n as [|n]; [cbn in Hn; lia|].
  destruct xs as [|y xs].
  - cbn [printElems parseElems]. rewrite <- app_assoc.
    rewrite Hx by reflexivity. reflexivity.
  - change (printElems print (x :: y :: xs))
      with (print x ++ ","%char :: printElems print (y :: xs)).
    cbn [parseElems]. rewrite <- app_assoc. cbn [app].
    rewrite Hx by reflexivity. cbn.
    rewrite IH; [reflexivity | discriminate | cbn in Hn |- *; lia].
Qed.

Lemma parseMembers_printMembers (kvs : list (string * t)) :
  Forall (fun kv => forall rest, numStop rest ->
                      pv (print (snd kv) ++ rest) = Some (snd kv, rest)) kvs ->
  kvs <> [] ->
  forall n rest, (List.length kvs <= n)%nat ->
    parseMembers pv n (printMembers print kvs ++ rest) = Some (kvs, rest).
Proof.
  induction 1 as [|[k x] kvs Hx Hxs IH]; [contradiction|].
  intros _ n rest Hn.
  destruct n as [|n]; [cbn in Hn; lia|].
  cbn [snd] in Hx.
  destruct kvs as [|kv kvs].
  - cbn [printMembers parseMembers]. rewrite <- app_assoc.
    rewrite parseString_printString. cbn. rewrite <- app_assoc.
    rewrite Hx by reflexivity. reflexivity.
  - change (printMembers print ((k, x) :: kv :: kvs))
      with (printString k ++ ":"%char :: print x ++ ","%char :: printMembers print (kv :: kvs)).
    cbn [parseMembers]. rewrite <- app_assoc.
    rewrite parseString_printString. cbn. rewrite <- app_assoc. cbn [app].
    rewrite Hx by reflexivity. cbn.
    rewrite IH; [reflexivity | discriminate | cbn in Hn |- *; lia].
Qed.
End Containers.

Lemma depth_elems (xs : list t) (f : nat) :
  (depth (JArr xs) <= S f)%nat -> Forall (fun x => (depth x <= f)%nat) xs.
Proof.
  cbn [depth]. intros H. apply le_S_n in H.
  induction xs as [|x xs IH]; constructor; cbn [fold_right] in H; [lia|].
  apply IH. lia.
Qed.

Lemma depth_members (kvs : list (string * t)) (f : nat) :
  (depth (JObj kvs) <= S f)%nat -> Forall (fun kv => (depth (snd kv) <= f)%nat) kvs.
Proof.
  cbn [depth]. intros H. apply le_S_n in H.
  induction kvs as [|kv kvs IH]; constructor; cbn [fold_right] in H; [lia|].
  apply IH. lia.
Qed.

Lemma depth_pos (v : t) : (1 <= depth v)%nat.
Proof. destruct v; cbn [depth]; lia. Qed.

(** Printing then parsing gives the value back and leaves the rest of
    the text, whatever follows as long as it cannot extend a number. *)
Lemma parseValue_print (v : t) :
  forall fuel rest, (depth v <= fuel)%nat -> numStop rest ->
    parseValue fuel (print v ++ rest) = Some (v, rest).
Proof.
  induction v as [|b|n|s|xs IH|kvs IH] using t_ind; intros fuel rest Hfuel Hrest;
    (destruct fuel as [|fuel]; [pose proof (depth_pos JNull); cbn [depth] in Hfuel; lia|]).
  - reflexivity.
  - destruct b; reflexivity.
  - pose proof (printNum_chars n) as Hcs. pose proof (printNum_nonempty n) as Hne.
    cbn [print].
    destruct (printNum n) as [|c tl] eqn:Hp; [contradiction|].
    cbn [app parseValue].
    assert (Hc : isNumChar c = true) by now inversion Hcs.
    rewrite Hc.
    change (c :: tl ++ rest) with ((c :: tl) ++ rest). rewrite <- Hp.
    now rewrite parseNum_printNum.
  - cbn [print]. unfold printString at 1. cbn [app parseValue].
    change (isNumChar dquote) with false. cbv iota. rewrite Ascii.eqb_refl.
    change (dquote :: (printChars (list_ascii_of_string s) ++ [dquote]) ++ rest)
      with (printString s ++ rest).
    now rewrite parseString_printString.
  - apply depth_elems in Hfuel.
    cbn [print app parseValue].
    change (isNumChar "[") with false. change (Ascii.eqb "[" dquote) with false.
    cbv iota. rewrite Ascii.eqb_refl.
    destruct xs as [|x xs]; [reflexivity|].
    assert (Hstrip : stripPrefix (lit "]") (printElems print (x :: xs) ++ rest) = None).
    { destruct xs; cbn [printElems]; rewrite <- app_assoc; apply stripBracket_print. }
    rewrite Hstrip.
    rewrite parseElems_printElems; [reflexivity | | discriminate |].
    + clear Hstrip. induction IH as [|y ys Hy _ IHys]; constructor.
      * intros r Hr. apply Hy; [now inversion Hfuel | exact Hr].
      * apply IHys. now inversion Hfuel.
    + rewrite length_app. pose proof (printElems_length (x :: xs)). lia.
  - apply depth_members in Hfuel.
    cbn [print app parseValue].
    change (isNumChar "{") with false. change (Ascii.eqb "{" dquote) with false.
    change (Ascii.eqb "{" "[") with false.
    cbv iota. rewrite Ascii.eqb_refl.
    destruct kvs as [|[k x] kvs]; [reflexivity|].
    assert (Hstrip : stripPrefix (lit "}") (printMembers print ((k, x) :: kvs) ++ rest) = None).
    { destruct kvs; reflexivity. }
    rewrite Hstrip.
    rewrite parseMembers_printMembers; [reflexivity | | discriminate |].
    + clear Hstrip. induction IH as [|y ys Hy _ IHys]; constructor.
      * intros r Hr. apply Hy; [now inversion Hfuel | exact Hr].
      * apply IHys. now inversion Hfuel.
    + rewrite length_app. pose proof (printMembers_length ((k, x) :: kvs)). lia.
Qed.

Lemma printElems_covers (xs : list t) :
  Forall (fun x => (depth x <= List.length (print x))%nat) xs ->
  (fold_right (fun x d => Nat.max (depth x) d) 0 xs <= List.length (printElems print xs))%nat.
Proof.
  induction 1 as [|x xs Hx _ IH]; cbn [fold_right printElems]; [lia|].
  destruct xs as [|y xs].
  - rewrite length_app. cbn [fold_right] in *. lia.
  - rewrite length_app. cbn [List.length]. lia.
Qed.

Lemma printMembers_covers (kvs : list (string * t)) :
  Forall (fun kv => (depth (snd kv) <= List.length (print (snd kv)))%nat) kvs ->
  (fold_right (fun kv d => Nat.max (depth (snd kv)) d) 0 kvs
   <= List.length (printMembers print kvs))%nat.
Proof.
  induction 1 as [|[k x] kvs Hx _ IH]; cbn [fold_right printMembers snd]; [lia|].
  cbn [snd] in Hx.
  destruct kvs as [|kv kvs].
  - rewrite length_app. cbn [List.length]. rewrite length_app. cbn [fold_right] in *. lia.
  - rewrite length_app. cbn [List.length]. rewrite length_app. cbn [List.length]. lia.
Qed.

(** The text is at least as long as the value is deep, so the fuel
    [parse] takes from the length of its input is enough. *)
Lemma depth_le_length (v : t) : (depth v <= List.length (print v))%nat.
Proof.
  induction v as [|b|n|s|xs IH|kvs IH] using t_ind; cbn [depth print].
  - cbn; lia.
  - destruct b; cbn; lia.
  - pose proof (printNum_nonempty n). destruct (printNum n); [contradiction | cbn; lia].
  - unfold printString. cbn; lia.
  - cbn [List.length]. pose proof (printElems_covers xs IH). lia.
  - cbn [List.length]. pose proof (printMembers_covers kvs IH). lia.
Qed.

Lemma parse_stringify (v : t) : parse (stringify v) = Some v.
Proof.
  unfold parse, stringify.
  rewrite list_ascii_of_string_of_list_ascii.
  rewrite <- (app_nil_r (print v)) at 2.
  rewrite parseValue_print; [reflexivity | | exact I].
  pose proof (depth_le_length v). lia.
Qed.

Lemma lookupProp_setProp_eq (k : string) (x : t) (kvs : list (string * t)) :
  lookupProp k (setProp k x kvs) = Some x.
Proof.
  induction kvs as [|[k' x'] kvs IH]; cbn.
  - now rewrite String.eqb_refl.
  - destruct (String.eqb k' k) eqn:Hk; cbn; now rewrite Hk.
Qed.

Lemma lookupProp_setProp_ne (k k' : string) (x : t) (kvs : list (string * t)) :
  k <> k' -> lookupProp k' (setProp k x kvs) = lookupProp k' kvs.
Proof.
  intros Hne. induction kvs as [|[k0 x0] kvs IH]; cbn.
  - destruct (String.eqb_spec k k'); [contradiction | reflexivity].
  - destruct (String.eqb_spec k0 k) as [->|]; cbn.
    + destruct (String.eqb_spec k k'); [contradiction | reflexivity].
    + now rewrite IH.
Qed.

End JsonFacts.

(** ** The resume token codec *)

Module TokenFacts.
Import Json Model Token.

Lemma traverse_map {A B : Type} (f : A -> B) (g : B -> option A) (l : list A) :
  (forall x, g (f x) = Some x) -> traverse g (map f l) = Some l.
Proof.
  intros Hgf. induction l as [|x l IH]; [reflexivity|].
  cbn. now rewrite Hgf, IH.
Qed.

Lemma argOfJson_argToJson (a : ArgValue) : argOfJson (argToJson a) = Some a.
Proof.
  destruct a as [s|l]; [reflexivity|].
  cbn. now rewrite (traverse_map JStr stringOfJson).
Qed.

Lemma invocationOfJson_invocationToJson (i : Invocation) :
  invocationOfJson (invocationToJson i) = Some i.
Proof.
  destruct i as [n a]. cbn.
  rewrite (traverse_map (fun kv => (fst kv, argToJson (snd kv))) argEntryOfJson).
  - reflexivity.
  - intros [k x]. unfold argEntryOfJson. cbn. now rewrite argOfJson_argToJson.
Qed.

Lemma pipelineOfJson_pipelineToJson (p : Pipeline) :
  pipelineOfJson (pipelineToJson p) = Some p.
Proof.
  cbn. apply traverse_map, invocationOfJson_invocationToJson.
Qed.

Lemma continuationOfJson_payloadOf (c : ResumeContinuation) :
  version c = 1 -> continuationOfJson (payloadToJson (payloadOf c)) = inr c.
Proof.
  destruct c as [ver pl k xs p]. cbn [version]. intros ->.
  pose proof (pipelineOfJson_pipelineToJson pl) as Hpl.
  cbn in Hpl |- *. now rewrite Hpl.
Qed.

Lemma encodeToken_nonempty (p : TokenPayload) : encodeToken p <> "".
Proof. unfold encodeToken, stringify, payloadToJson. cbn. discriminate. Qed.

(** C7.  A valid continuation survives encoding followed by decoding:
    the pipeline, the resume index, the items and the prompt come back
    unchanged. *)
Theorem token_round_trip (c : ResumeContinuation) :
  version c = 1 ->
  decodeResumeToken (Some (encodeToken (payloadOf c))) = inr c.
Proof.
  intros Hv. unfold decodeResumeToken, encodeToken.
  rewrite JsonFacts.parse_stringify.
  now apply continuationOfJson_payloadOf.
Qed.

Lemma token_round_trip_witness :
  version Scenario.continuation = 1 /\
  decodeResumeToken (Some Scenario.token) = inr Scenario.continuation.
Proof.
  split; [reflexivity | apply (token_round_trip Scenario.continuation); reflexivity].
Defined.

End TokenFacts.

(** ** The runtime engine *)

Module RuntimeFacts.
Import Json Model Runtime.

Lemma runStages_prefix (registry : Registry) (stages : Pipeline) :
  forall stream didR, fst (runStages registry stages stream didR) `prefix_of` stages.
Proof.
  induction stages as [|stage rest IH]; intros stream didR; cbn [runStages].
  - cbn. reflexivity.
  - destruct (registry (name stage)) as [cmd|]; [|apply prefix_nil].
    destruct (run cmd stream (args stage)) as [err|out].
    + cbn. apply prefix_cons, prefix_nil.
    + specialize (IH (output out) (didRender out)).
      destruct (runStages registry rest (output out) (didRender out)) as [called res].
      cbn in *. now apply prefix_cons.
Qed.

(** The engine invokes stages of the pipeline it is given, from the
    first one on, in order. *)
Lemma runPipeline_prefix (registry : Registry) (a : RunArgs) :
  fst (runPipeline registry a) `prefix_of` pipeline a.
Proof.
  unfold runPipeline.
  pose proof (runStages_prefix registry (pipeline a)
                (match input a with Some xs => xs | None => [] end) false) as H.
  destruct (runStages _ _ _ _) as [called [err|[drained didR]]]; exact H.
Qed.

End RuntimeFacts.

(** ** The mode adapter and the resume path *)

Module CliFacts.
Import Json Model Cli Trace.

(** Unfolds the effects down to the log they build. *)
Ltac unfold_effects :=
  unfold writeToolEnvelope, setExitCode, Eff.tryCatch, Eff.bind, Eff.emit,
    Eff.emitAll, Eff.lift, Eff.ret, Eff.throw.

(** Runs the engine call at the head of a handler's [try] block. *)
Ltac step_engine Hrun :=
  unfold Eff.tryCatch, Eff.bind at 1, callEngine; rewrite Hrun;
  unfold_effects; cbn beta iota; cbn [app String.eqb Ascii.eqb Bool.eqb].

(** Closes an equation between two logs built by appending. *)
Ltac log_eq :=
  unfold_effects; cbn [app fst snd];
  repeat rewrite <- app_assoc; cbn [app]; reflexivity.

Lemma parseModeAndStrip_loop_plain (argv : list string) :
  Forall (fun tok => String.eqb tok "--mode" = false /\ String.prefix "--mode=" tok = false) argv ->
  forall mode rest, parseModeAndStrip_loop argv mode rest = (mode, rest ++ argv).
Proof.
  induction 1 as [|tok argv [Hm Hp] _ IH]; intros mode rest; cbn [parseModeAndStrip_loop].
  - now rewrite app_nil_r.
  - rewrite Hm, Hp, IH. now rewrite <- app_assoc.
Qed.

Lemma stdoutOf_app (es es' : list Event) :
  stdoutOf (es ++ es') = stdoutOf es ++ stdoutOf es'.
Proof.
  induction es as [|e es IH]; [reflexivity|].
  destruct e; cbn; now rewrite IH.
Qed.

Lemma stdoutOf_stages (called : list Invocation) : stdoutOf (map StageRun called) = [].
Proof. induction called; [reflexivity | assumption]. Qed.

Lemma stagesRun_app (es es' : list Event) :
  stagesRun (es ++ es') = stagesRun es ++ stagesRun es'.
Proof.
  induction es as [|e es IH]; [reflexivity|].
  destruct e; cbn; now rewrite IH.
Qed.

Lemma stagesRun_stages (called : list Invocation) : stagesRun (map StageRun called) = called.
Proof. induction called as [|st called IH]; [reflexivity | cbn; now rewrite IH]. Qed.

Lemma engineCalls_app (es es' : list Event) :
  engineCalls (es ++ es') = engineCalls es ++ engineCalls es'.
Proof.
  induction es as [|e es IH]; [reflexivity|].
  destruct e; cbn; now rewrite IH.
Qed.

Lemma engineCalls_stages (called : list Invocation) : engineCalls (map StageRun called) = [].
Proof. induction called; [reflexivity | assumption]. Qed.

(** An element of [a.slice(start)] is an element of [a] at an index
    that is not below [start]. *)
Lemma slice_lookup {A : Type} (a : list A) (start : Z) (i : nat) (x : A) :
  Js.slice a start !! i = Some x ->
  exists j : nat, a !! j = Some x /\ start <= Z.of_nat j.
Proof.
  unfold Js.slice. intros Hi. rewrite lookup_drop in Hi.
  eexists. split; [exact Hi|].
  apply lookup_lt_Some in Hi.
  destruct (Z.ltb_spec start 0); lia.
Qed.

Section Handlers.
Variable parsePipeline : string -> Js.Result Pipeline.
Variable runPipeline : Engine.
Variable encodeToken : TokenPayload -> string.
Variable parseResumeArgs : list string -> Js.Result (option string * bool).
Variable decodeResumeToken : option string -> Js.Result ResumeContinuation.

Local Abbreviation handleRun := (Cli.handleRun parsePipeline runPipeline encodeToken).
Local Abbreviation handleResume :=
  (Cli.handleResume runPipeline encodeToken parseResumeArgs decodeResumeToken).

(** In tool mode, whatever the engine returns is reported in one
    [ok: true] envelope and no exit code is set. *)
Lemma reportToolResult_run (pl : Pipeline) (output : RunResult) (log : list Event) :
  exists envelope,
    lookupProp "ok" envelope = Some (JBool true) /\
    reportToolResult encodeToken pl output log
    = (log ++ [Stdout (JsonText (JObj envelope)); Stdout (Text nl)], inr tt).
Proof.
  unfold reportToolResult, writeToolEnvelope, Eff.bind, Eff.emit.
  destruct (approvalOf output) as [approval|]; eexists; rewrite <- app_assoc;
    (split; [|reflexivity]); reflexivity.
Qed.

(** C5.  In tool mode a parse failure is reported in one
    [parse_error] envelope with exit code 2 and without the engine
    being called; a failure of the run is reported in one
    [runtime_error] envelope with exit code 1; a run that returns, halted
    or not, writes its envelope and sets no exit code. *)
Theorem tool_mode_exit_codes (argv rest : list string) :
  parseModeAndStrip argv = ("tool", rest) ->
  match parsePipeline (Js.join " " rest) with
  | inl err =>
      Eff.run (handleRun argv)
      = ([Stdout (JsonText
                    (JObj [("ok", JBool false);
                           ("error", JObj [("type", JStr "parse_error");
                                           ("message", JStr (Js.messageOf err))])]));
          Stdout (Text nl);
          ExitCode 2],
         inr tt)
  | inr pl =>
      let a := {| pipeline := pl; mode := "tool"; input := None |} in
      match runPipeline a with
      | (called, inl err) =>
          Eff.run (handleRun argv)
          = (EngineCall a :: map StageRun called ++
             [Stdout (JsonText
                        (JObj [("ok", JBool false);
                               ("error", JObj [("type", JStr "runtime_error");
                                               ("message", JStr (Js.messageOf err))])]));
              Stdout (Text nl);
              ExitCode 1],
             inr tt)
      | (called, inr output) =>
          exists envelope,
            lookupProp "ok" envelope = Some (JBool true) /\
            Eff.run (handleRun argv)
            = (EngineCall a :: map StageRun called ++
               [Stdout (JsonText (JObj envelope)); Stdout (Text nl)],
               inr tt)
      end
  end.
Proof.
  intros Hmode. unfold Eff.run, Cli.handleRun. rewrite Hmode.
  destruct (parsePipeline (Js.join " " rest)) as [err|pl]; [reflexivity|].
  cbn zeta.
  unfold Eff.tryCatch, Eff.bind at 1, callEngine.
  destruct (runPipeline _) as [called [err|output]] eqn:Hrun.
  - cbn [String.eqb Ascii.eqb Bool.eqb]. unfold errorEnvelope. log_eq.
  - cbn [String.eqb Ascii.eqb Bool.eqb]. unfold Eff.bind, Eff.emit, Eff.emitAll, Eff.lift.
    cbn [app].
    destruct (reportToolResult_run pl output (EngineCall {| pipeline := pl; mode := "tool"; input := None |} :: map StageRun called))
      as (envelope & Hok & Henv).
    exists envelope. split; [exact Hok|]. rewrite Henv. reflexivity.
Qed.

(** A tool-mode run that halts on a sole approval item writes the
    approval envelope, whose token encodes the parsed pipeline, the
    index after the halt, and the approval's items and prompt. *)
Lemma handleRun_approval (argv rest : list string) (pl : Pipeline)
    (called : list Invocation) (output : RunResult) (approval : list (string * Json.t)) :
  parseModeAndStrip argv = ("tool", rest) ->
  parsePipeline (Js.join " " rest) = inr pl ->
  runPipeline {| pipeline := pl; mode := "tool"; input := None |} = (called, inr output) ->
  halted output = true ->
  items output = [JObj approval] ->
  lookupProp "type" approval = Some (JStr "approval_request") ->
  Eff.run (handleRun argv)
  = (EngineCall {| pipeline := pl; mode := "tool"; input := None |}
     :: map StageRun called ++
     [Stdout (JsonText
                (approvalEnvelope approval
                   (encodeToken {| v := 1;
                                   tpPipeline := pl;
                                   tpResumeAtIndex := nextIndex output;
                                   tpItems := lookupProp "items" approval;
                                   tpPrompt := lookupProp "prompt" approval |})));
      Stdout (Text nl)],
     inr tt).
Proof.
  intros Hmode Hparse Hrun Hhalt Hitems Htype.
  unfold Eff.run, Cli.handleRun. rewrite Hmode, Hparse.
  step_engine Hrun.
  unfold reportToolResult, approvalOf. rewrite Hhalt, Hitems, Htype.
  cbn [String.eqb Ascii.eqb Bool.eqb]. log_eq.
Qed.

(** C8.  In human mode a run that returns without having rendered
    has its items written as JSON, and nothing else; when a command
    rendered, the front end writes nothing. *)
Theorem human_mode_output (argv rest : list string) (pl : Pipeline)
    (called : list Invocation) (output : RunResult) :
  parseModeAndStrip argv = ("human", rest) ->
  parsePipeline (Js.join " " rest) = inr pl ->
  runPipeline {| pipeline := pl; mode := "human"; input := None |} = (called, inr output) ->
  stdoutOf (Eff.events (handleRun argv))
  = if rendered output then [] else [JsonText (JArr (items output)); Text nl].
Proof.
  intros Hmode Hparse Hrun.
  unfold Eff.events, Eff.run, Cli.handleRun. rewrite Hmode, Hparse.
  step_engine Hrun.
  destruct (rendered output); cbn [negb fst];
    rewrite ?stdoutOf_app; cbn [stdoutOf]; rewrite stdoutOf_stages; reflexivity.
Qed.

(** C6.  A resume with a decodable token and without approval writes
    the cancelled envelope and nothing else; the engine is not called
    and no stage runs. *)
Theorem unapproved_resume_is_cancelled (argv : list string) (token : option string)
    (c : ResumeContinuation) :
  parseResumeArgs argv = inr (token, false) ->
  decodeResumeToken token = inr c ->
  Eff.run (handleResume argv)
  = ([Stdout (JsonText
                (JObj [("ok", JBool true); ("status", JStr "cancelled");
                       ("output", JArr []); ("requiresApproval", JNull)]));
      Stdout (Text nl)],
     inr tt).
Proof.
  intros Hargs Hdecode.
  unfold Eff.run, Cli.handleResume, Eff.bind at 1, Eff.lift at 1. rewrite Hargs.
  unfold Eff.bind at 1, Eff.lift at 1. rewrite Hdecode.
  reflexivity.
Qed.

(** A failure of [parseResumeArgs] or of [decodeResumeToken] leaves
    [handleResume] as an exception: both calls sit before the [try]. *)
Lemma handleResume_token_error (argv : list string) (err : Js.Error) :
  parseResumeArgs argv = inl err \/
  (exists token approved,
     parseResumeArgs argv = inr (token, approved) /\
     decodeResumeToken token = inl err) ->
  Eff.run (handleResume argv) = ([], inl err).
Proof.
  intros [Hargs | (token & approved & Hargs & Hdecode)].
  - unfold Eff.run, Cli.handleResume, Eff.bind at 1, Eff.lift at 1. now rewrite Hargs.
  - unfold Eff.run, Cli.handleResume, Eff.bind at 1, Eff.lift at 1. rewrite Hargs.
    unfold Eff.bind at 1, Eff.lift at 1. now rewrite Hdecode.
Qed.

(** C2, as the code has it.  When the resume arguments or the token
    are rejected (token missing, of another version, or not decodable),
    the error leaves [handleResume] uncaught and nothing is written to
    standard output: no [runtime_error] envelope is produced. *)
Theorem token_error_escapes_envelope (argv : list string) (err : Js.Error) :
  parseResumeArgs argv = inl err \/
  (exists token approved,
     parseResumeArgs argv = inr (token, approved) /\
     decodeResumeToken token = inl err) ->
  Eff.outcome (handleResume argv) = inl err /\
  stdoutOf (Eff.events (handleResume argv)) = [].
Proof.
  intros Hfail. unfold Eff.outcome, Eff.events.
  now rewrite (handleResume_token_error argv err Hfail).
Qed.

(** C3, as the code has it.  A resume whose arguments or token are
    rejected writes no JSON object at all, where the single-envelope
    rule asks for one. *)
Theorem token_error_writes_no_json_object (argv : list string) (err : Js.Error) :
  parseResumeArgs argv = inl err \/
  (exists token approved,
     parseResumeArgs argv = inr (token, approved) /\
     decodeResumeToken token = inl err) ->
  jsonObjectsWritten (Eff.events (handleResume argv)) = 0%nat.
Proof.
  intros Hfail. unfold Eff.events.
  now rewrite (handleResume_token_error argv err Hfail).
Qed.

Lemma jsonObjectsWritten_stages (a : RunArgs) (called : list Invocation) (es : list Event) :
  jsonObjectsWritten (EngineCall a :: map StageRun called ++ es) = jsonObjectsWritten es.
Proof.
  unfold jsonObjectsWritten. cbn [stdoutOf].
  now rewrite stdoutOf_app, stdoutOf_stages.
Qed.


(** C1, as amended.  A tool-mode run that halts on a sole approval
    request writes a token that encodes the pipeline, the halt index
    plus one and the approval's items and prompt.  On a resume that is
    approved, a decoded token makes the handler call the engine once,
    with the items as input and the pipeline sliced at the resume index;
    with an engine that runs stages of the pipeline it is given, every
    stage that runs sits at or after the resume index. *)
Theorem resume_token_and_resume_path :
  (forall argv rest pl called output approval h,
     parseModeAndStrip argv = ("tool", rest) ->
     parsePipeline (Js.join " " rest) = inr pl ->
     runPipeline {| pipeline := pl; mode := "tool"; input := None |} = (called, inr output) ->
     halted output = true ->
     items output = [JObj approval] ->
     lookupProp "type" approval = Some (JStr "approval_request") ->
     haltedAt output = Some h ->
     stdoutOf (Eff.events (handleRun argv))
     = [JsonText
          (JObj [("ok", JBool true); ("status", JStr "needs_approval");
                 ("output", JArr []);
                 ("requiresApproval",
                  JObj (setProp "resumeToken"
                          (JStr (encodeToken
                                   {| v := 1;
                                      tpPipeline := pl;
                                      tpResumeAtIndex := index h + 1;
                                      tpItems := lookupProp "items" approval;
                                      tpPrompt := lookupProp "prompt" approval |}))
                          approval))]);
        Text nl]) /\
  (forall argv token c,
     parseResumeArgs argv = inr (token, true) ->
     decodeResumeToken token = inr c ->
     let a := {| pipeline := Js.slice (rcPipeline c) (resumeAtIndex c);
                 mode := "tool";
                 input := Some (rcItems c) |} in
     engineCalls (Eff.events (handleResume argv)) = [a] /\
     stagesRun (Eff.events (handleResume argv)) = fst (runPipeline a) /\
     ((forall a', fst (runPipeline a') `prefix_of` pipeline a') ->
      forall (i : nat) (stage : Invocation),
        stagesRun (Eff.events (handleResume argv)) !! i = Some stage ->
        exists j : nat,
          rcPipeline c !! j = Some stage /\ resumeAtIndex c <= Z.of_nat j)).
Proof.
  split.
  - intros argv rest pl called output approval h Hmode Hparse Hrun Hhalt Hitems Htype Hat.
    unfold Eff.events.
    rewrite (handleRun_approval argv rest pl called output approval
               Hmode Hparse Hrun Hhalt Hitems Htype).
    cbn [fst stdoutOf]. rewrite stdoutOf_app, stdoutOf_stages.
    unfold nextIndex. rewrite Hat. reflexivity.
  - intros argv token c Hargs Hdecode a.
    assert (Hev : exists envelope exit,
               Eff.events (handleResume argv)
               = EngineCall a :: map StageRun (fst (runPipeline a)) ++
                 [Stdout (JsonText (JObj envelope)); Stdout (Text nl)] ++ map ExitCode exit).
    { unfold Eff.events, Eff.run, Cli.handleResume, Eff.bind at 1, Eff.lift at 1.
      rewrite Hargs. unfold Eff.bind at 1, Eff.lift at 1. rewrite Hdecode.
      cbn [negb]. fold a.
      destruct (runPipeline a) as [called [err|output]] eqn:Hrun.
      - step_engine Hrun. unfold errorEnvelope.
        exists [("ok", JBool false);
                ("error", JObj [("type", JStr "runtime_error");
                                ("message", JStr (Js.messageOf err))])], [1].
        rewrite <- !app_assoc. reflexivity.
      - step_engine Hrun.
        destruct (reportToolResult_run (Js.slice (rcPipeline c) (resumeAtIndex c)) output
                    (EngineCall a :: map StageRun called)) as (envelope & _ & Henv).
        exists envelope, []. rewrite Henv. reflexivity. }
    destruct Hev as (envelope & exit & Hev).
    assert (Hstages : stagesRun (Eff.events (handleResume argv)) = fst (runPipeline a)).
    { rewrite Hev. cbn [stagesRun]. rewrite stagesRun_app, stagesRun_stages.
      cbn [stagesRun app]. clear Hev.
      induction exit as [|n exit IH]; [apply app_nil_r | exact IH]. }
    split; [|split].
    + rewrite Hev. cbn [engineCalls]. rewrite engineCalls_app, engineCalls_stages.
      cbn [engineCalls app]. clear Hev Hstages. f_equal.
      induction exit as [|n exit IH]; [reflexivity | exact IH].
    + exact Hstages.
    + intros Hengine i stage Hi.
      rewrite Hstages in Hi.
      pose proof (prefix_lookup_Some _ _ _ _ Hi (Hengine a)) as Hin.
      unfold a in Hin. cbn [pipeline] in Hin.
      now apply slice_lookup in Hin.
Qed.

(** The run subcommand in tool mode writes exactly one JSON object,
    whether parsing fails, the run fails, halts or completes. *)
Lemma handleRun_tool_single_envelope (argv rest : list string) :
  parseModeAndStrip argv = ("tool", rest) ->
  jsonObjectsWritten (Eff.events (handleRun argv)) = 1%nat.
Proof.
  intros Hmode. unfold Eff.events, Eff.run, Cli.handleRun. rewrite Hmode.
  destruct (parsePipeline (Js.join " " rest)) as [err|pl]; [reflexivity|].
  set (a := {| pipeline := pl; mode := "tool"; input := None |}).
  destruct (runPipeline a) as [called [err|output]] eqn:Hrun.
  - step_engine Hrun. rewrite <- !app_assoc. cbn [app fst].
    now rewrite jsonObjectsWritten_stages.
  - step_engine Hrun.
    destruct (reportToolResult_run pl output (EngineCall a :: map StageRun called))
      as (envelope & _ & Henv).
    rewrite Henv. cbn [fst app]. now rewrite jsonObjectsWritten_stages.
Qed.

(** So does a resume, once its arguments are parsed and its token is
    decoded. *)
Lemma handleResume_decoded_single_envelope (argv : list string)
    (token : option string) (approved : bool) (c : ResumeContinuation) :
  parseResumeArgs argv = inr (token, approved) ->
  decodeResumeToken token = inr c ->
  jsonObjectsWritten (Eff.events (handleResume argv)) = 1%nat.
Proof.
  intros Hargs Hdecode.
  unfold Eff.events, Eff.run, Cli.handleResume, Eff.bind at 1, Eff.lift at 1.
  rewrite Hargs. unfold Eff.bind at 1, Eff.lift at 1. rewrite Hdecode.
  destruct approved; [|reflexivity].
  cbn [negb].
  set (a := {| pipeline := Js.slice (rcPipeline c) (resumeAtIndex c);
               mode := "tool"; input := Some (rcItems c) |}).
  destruct (runPipeline a) as [called [err|output]] eqn:Hrun.
  - step_engine Hrun. rewrite <- !app_assoc. cbn [app fst].
    now rewrite jsonObjectsWritten_stages.
  - step_engine Hrun.
    destruct (reportToolResult_run (Js.slice (rcPipeline c) (resumeAtIndex c)) output
                (EngineCall a :: map StageRun called)) as (envelope & _ & Henv).
    rewrite Henv. cbn [fst app]. now rewrite jsonObjectsWritten_stages.
Qed.

(** [lobster run ...] and [lobster resume ...] reach the two handlers
    with the subcommand stripped, unless help is asked for. *)
Lemma runCli_dispatch (commandHelp : string -> option string) (args : list string) :
  includes "-h" args = false -> includes "--help" args = false ->
  Cli.runCli parsePipeline runPipeline encodeToken parseResumeArgs decodeResumeToken
    commandHelp ("run" :: args) = handleRun args /\
  Cli.runCli parsePipeline runPipeline encodeToken parseResumeArgs decodeResumeToken
    commandHelp ("resume" :: args) = handleResume args.
Proof.
  intros Hh Hhelp. unfold Cli.runCli.
  cbn [includes existsb]. unfold includes in Hh, Hhelp. rewrite Hh, Hhelp.
  split; reflexivity.
Qed.

End Handlers.

(** C4.  A tool-mode run halted on exactly one approval request
    writes an envelope with [ok: true], status [needs_approval], an
    empty output and a [requiresApproval] object that carries the
    approval's prompt and a non-empty resume token. *)
Theorem needs_approval_envelope
    (parsePipeline : string -> Js.Result Pipeline) (runPipeline : Engine)
    (argv rest : list string) (pl : Pipeline) (called : list Invocation)
    (output : RunResult) (approval : list (string * Json.t)) (promptValue : Json.t) :
  parseModeAndStrip argv = ("tool", rest) ->
  parsePipeline (Js.join " " rest) = inr pl ->
  runPipeline {| pipeline := pl; mode := "tool"; input := None |} = (called, inr output) ->
  halted output = true ->
  items output = [JObj approval] ->
  lookupProp "type" approval = Some (JStr "approval_request") ->
  lookupProp "prompt" approval = Some promptValue ->
  exists requiresApproval resumeToken,
    stdoutOf (Eff.events (Cli.handleRun parsePipeline runPipeline Token.encodeToken argv))
    = [JsonText (JObj [("ok", JBool true); ("status", JStr "needs_approval");
                       ("output", JArr []);
                       ("requiresApproval", JObj requiresApproval)]);
       Text nl] /\
    lookupProp "prompt" requiresApproval = Some promptValue /\
    lookupProp "resumeToken" requiresApproval = Some (JStr resumeToken) /\
    resumeToken <> "".
Proof.
  intros Hmode Hparse Hrun Hhalt Hitems Htype Hprompt.
  eexists _, _. unfold Eff.events.
  rewrite (handleRun_approval parsePipeline runPipeline Token.encodeToken
             argv rest pl called output approval Hmode Hparse Hrun Hhalt Hitems Htype).
  cbn [fst stdoutOf]. rewrite stdoutOf_app, stdoutOf_stages.
  split; [reflexivity|]. split; [|split].
  - rewrite JsonFacts.lookupProp_setProp_ne by discriminate. exact Hprompt.
  - apply JsonFacts.lookupProp_setProp_eq.
  - apply TokenFacts.encodeToken_nonempty.
Qed.

End CliFacts.

(** ** The statements on the scenario *)

Module ScenarioFacts.
Import Json Model Cli Trace.

Local Abbreviation handleRun :=
  (Cli.handleRun Scenario.parsePipeline Scenario.runPipeline Token.encodeToken).
Local Abbreviation handleResume :=
  (Cli.handleResume Scenario.runPipeline Token.encodeToken
     Scenario.parseResumeArgs Token.decodeResumeToken).

Lemma scenario_parses :
  Scenario.parsePipeline (Js.join " " [Scenario.pipelineText])
  = inr [Scenario.execStage; Scenario.approveStage].
Proof. reflexivity. Qed.

Lemma scenario_halts (m : string) :
  Scenario.runPipeline
    {| pipeline := [Scenario.execStage; Scenario.approveStage]; mode := m; input := None |}
  = ([Scenario.execStage; Scenario.approveStage], inr Scenario.haltedResult).
Proof. reflexivity. Qed.

Lemma scenario_token_decodes :
  Token.decodeResumeToken (Some Scenario.token) = inr Scenario.continuation.
Proof. vm_compute. reflexivity. Qed.

Lemma tool_mode_exit_codes_witness :
  parseModeAndStrip ["--mode"; "tool"; "|"] = ("tool", ["|"]) /\
  Eff.run (handleRun ["--mode"; "tool"; "|"])
  = ([Stdout (JsonText
                (JObj [("ok", JBool false);
                       ("error", JObj [("type", JStr "parse_error");
                                       ("message", JStr "Unexpected token")])]));
      Stdout (Text nl);
      ExitCode 2],
     inr tt).
Proof.
  split; [reflexivity|].
  exact (CliFacts.tool_mode_exit_codes Scenario.parsePipeline Scenario.runPipeline
           Token.encodeToken ["--mode"; "tool"; "|"] ["|"] eq_refl).
Defined.

Lemma needs_approval_envelope_witness :
  exists requiresApproval resumeToken,
    stdoutOf (Eff.events (handleRun Scenario.toolArgv))
    = [JsonText (JObj [("ok", JBool true); ("status", JStr "needs_approval");
                       ("output", JArr []);
                       ("requiresApproval", JObj requiresApproval)]);
       Text nl] /\
    lookupProp "prompt" requiresApproval = Some (JStr "ok?") /\
    lookupProp "resumeToken" requiresApproval = Some (JStr resumeToken) /\
    resumeToken <> "".
Proof.
  exact (CliFacts.needs_approval_envelope Scenario.parsePipeline Scenario.runPipeline
           Scenario.toolArgv [Scenario.pipelineText]
           [Scenario.execStage; Scenario.approveStage]
           [Scenario.execStage; Scenario.approveStage]
           Scenario.haltedResult Scenario.approval (JStr "ok?")
           eq_refl scenario_parses (scenario_halts "tool") eq_refl eq_refl eq_refl eq_refl).
Defined.

Lemma human_mode_output_witness :
  stdoutOf (Eff.events (handleRun Scenario.humanArgv))
  = [JsonText (JArr [JObj Scenario.approval]); Text nl].
Proof.
  exact (CliFacts.human_mode_output Scenario.parsePipeline Scenario.runPipeline
           Token.encodeToken Scenario.humanArgv [Scenario.pipelineText]
           [Scenario.execStage; Scenario.approveStage]
           [Scenario.execStage; Scenario.approveStage]
           Scenario.haltedResult
           eq_refl scenario_parses (scenario_halts "human")).
Defined.

Lemma unapproved_resume_is_cancelled_witness :
  Eff.run (handleResume Scenario.declineArgv)
  = ([Stdout (JsonText
                (JObj [("ok", JBool true); ("status", JStr "cancelled");
                       ("output", JArr []); ("requiresApproval", JNull)]));
      Stdout (Text nl)],
     inr tt).
Proof.
  exact (CliFacts.unapproved_resume_is_cancelled Scenario.runPipeline Token.encodeToken
           Scenario.parseResumeArgs Token.decodeResumeToken
           Scenario.declineArgv (Some Scenario.token) Scenario.continuation
           eq_refl scenario_token_decodes).
Defined.

Lemma token_error_escapes_envelope_witness :
  Token.decodeResumeToken (Some "not-a-token") = inl Token.invalidToken /\
  Eff.outcome (handleResume ["--token"; "not-a-token"; "--approve"; "yes"])
  = inl Token.invalidToken /\
  stdoutOf (Eff.events (handleResume ["--token"; "not-a-token"; "--approve"; "yes"])) = [].
Proof.
  split; [reflexivity|].
  apply (CliFacts.token_error_escapes_envelope Scenario.runPipeline Token.encodeToken
           Scenario.parseResumeArgs Token.decodeResumeToken
           ["--token"; "not-a-token"; "--approve"; "yes"] Token.invalidToken).
  right. exists (Some "not-a-token"), true. split; reflexivity.
Defined.

Lemma token_error_writes_no_json_object_witness :
  Token.decodeResumeToken None = inl Token.missingToken /\
  jsonObjectsWritten (Eff.events (handleResume ["--approve"; "yes"])) = 0%nat.
Proof.
  split; [reflexivity|].
  apply (CliFacts.token_error_writes_no_json_object Scenario.runPipeline Token.encodeToken
           Scenario.parseResumeArgs Token.decodeResumeToken
           ["--approve"; "yes"] Token.missingToken).
  right. exists None, true. split; reflexivity.
Defined.

(** C1 as the specification states it fails: with a decodable token
    and the approval withheld, the pipeline is not re-run; the engine is
    not called and no stage runs. *)
Lemma unapproved_resume_runs_nothing :
  Scenario.parseResumeArgs Scenario.declineArgv = inr (Some Scenario.token, false) /\
  Token.decodeResumeToken (Some Scenario.token) = inr Scenario.continuation /\
  engineCalls (Eff.events (handleResume Scenario.declineArgv)) = [] /\
  stagesRun (Eff.events (handleResume Scenario.declineArgv)) = [].
Proof. repeat split; vm_compute; reflexivity. Qed.

Lemma resume_token_and_resume_path_witness :
  stdoutOf (Eff.events (handleRun Scenario.toolArgv))
  = [JsonText
       (JObj [("ok", JBool true); ("status", JStr "needs_approval");
              ("output", JArr []);
              ("requiresApproval",
               JObj (setProp "resumeToken"
                       (JStr (Token.encodeToken
                                {| v := 1;
                                   tpPipeline := [Scenario.execStage; Scenario.approveStage];
                                   tpResumeAtIndex := 1 + 1;
                                   tpItems := Some (JArr [JNum 1]);
                                   tpPrompt := Some (JStr "ok?") |}))
                       Scenario.approval))]);
     Text nl] /\
  engineCalls (Eff.events (handleResume Scenario.approveArgv))
  = [{| pipeline := [Scenario.jsonStage]; mode := "tool"; input := Some [JNum 1] |}] /\
  stagesRun (Eff.events (handleResume Scenario.approveArgv)) = [Scenario.jsonStage] /\
  (exists j : nat,
     rcPipeline Scenario.continuation !! j = Some Scenario.jsonStage /\
     resumeAtIndex Scenario.continuation <= Z.of_nat j).
Proof.
  destruct (CliFacts.resume_token_and_resume_path Scenario.parsePipeline Scenario.runPipeline
              Token.encodeToken Scenario.parseResumeArgs Token.decodeResumeToken)
    as [Hrun Hresume].
  split.
  - exact (Hrun Scenario.toolArgv [Scenario.pipelineText]
             [Scenario.execStage; Scenario.approveStage]
             [Scenario.execStage; Scenario.approveStage]
             Scenario.haltedResult Scenario.approval {| index := 1 |}
             eq_refl scenario_parses (scenario_halts "tool") eq_refl eq_refl eq_refl eq_refl).
  - destruct (Hresume Scenario.approveArgv (Some Scenario.token) Scenario.continuation
                eq_refl scenario_token_decodes) as (Hcalls & Hstages & Hindex).
    split; [exact Hcalls|]. split; [exact Hstages|].
    apply (Hindex (RuntimeFacts.runPipeline_prefix Scenario.registry) 0%nat).
    rewrite Hstages. reflexivity.
Defined.


End ScenarioFacts.

(** ** workflows.run *)

Module WorkflowsRunFacts.
Import Json WorkflowsRun.

Section Command.
Variable Ctx : Type.
Variable Meta : Type.
Variable workflowRegistry : gmap string Meta.
Variable runEmailTriageWorkflow : Runner Ctx.
Variable runGithubPrMonitorWorkflow : Runner Ctx.
Variable runGithubPrMonitorNotifyWorkflow : Runner Ctx.
Variable JSON_parse : string -> option Json.t.
Variable callInherited : ObjectLiteral.Inherited -> Runner Ctx.

Local Abbreviation runners :=
  (WorkflowsRun.runners Ctx runEmailTriageWorkflow runGithubPrMonitorWorkflow
     runGithubPrMonitorNotifyWorkflow).
Local Abbreviation run :=
  (WorkflowsRun.run Ctx Meta workflowRegistry runEmailTriageWorkflow
     runGithubPrMonitorWorkflow runGithubPrMonitorNotifyWorkflow JSON_parse
     callInherited).

(** A name that is truthy selects the rest of [run]. *)
Lemma run_named (input : list Json.t) (args : Args) (ctx : Ctx) (name : string) :
  nameOf args = Some name -> name <> "" ->
  Eff.run (run input args ctx)
  = match ObjectLiteral.get (workflowRegistry !! name) name with
    | None => (map Pull input, inl (Js.mkError ("Unknown workflow: " +:+ name)))
    | Some meta =>
        match ObjectLiteral.get (runners !! name) name with
        | None =>
            (map Pull input,
             inl (Js.mkError ("Workflow runner not implemented: " +:+ name)))
        | Some runner =>
            if Js.truthy (argsJson args) then
              match JSON_parse (default "" (argsJson args)) with
              | None =>
                  (map Pull input,
                   inl (Js.mkError "workflows.run --args-json must be valid JSON"))
              | Some parsed =>
                  (map Pull input ++ [RunnerCall name parsed],
                   match call Ctx callInherited runner parsed ctx with
                   | inl err => inl err
                   | inr result => inr [result]
                   end)
              end
            else
              (map Pull input ++ [RunnerCall name (JObj [])],
               match call Ctx callInherited runner (JObj []) ctx with
               | inl err => inl err
               | inr result => inr [result]
               end)
        end
    end.
Proof.
  intros Hn Hne.
  unfold Eff.run, WorkflowsRun.run, Eff.bind at 1, Eff.emitAll.
  rewrite Hn. cbn [Js.truthy]. apply String.eqb_neq in Hne as ->.
  cbn [negb from_option id app].
  destruct (ObjectLiteral.get (workflowRegistry !! name) name) as [meta|]; [|reflexivity].
  destruct (ObjectLiteral.get (_ !! name) name) as [runner|]; [|reflexivity].
  unfold asStream, Eff.bind, Eff.emit, Eff.lift, Eff.ret, Eff.throw.
  destruct (Js.truthy (argsJson args)).
  - destruct (JSON_parse _) as [parsed|]; [|reflexivity].
    now destruct (call _ _ runner parsed ctx).
  - now destruct (call _ _ runner (JObj []) ctx).
Qed.

(** C9, as amended.  The command first takes every item of its
    input.  It then throws, with no runner invoked, when neither
    [args.name] nor a first positional argument gives a name, when the
    name is not in the workflow registry, when no runner is implemented
    for it, and when [--args-json] is a non-empty string that is not
    valid JSON; otherwise it invokes the runner once, on the parsed
    arguments or on the empty object, and its output holds exactly the
    runner's result.  A name is in the registry, and has a runner, as an
    own key of the table; what the command does for a name that is in
    neither table but is inherited from [Object.prototype] is left
    open. *)
Theorem workflows_run_outcomes (input : list Json.t) (args : Args) (ctx : Ctx) :
  (Js.truthy (nameOf args) = false ->
     Eff.run (run input args ctx)
     = (map Pull input, inl (Js.mkError "workflows.run requires --name"))) /\
  (forall name,
     nameOf args = Some name -> name <> "" ->
     workflowRegistry !! name = None ->
     ObjectLiteral.inherited name = None ->
     Eff.run (run input args ctx)
     = (map Pull input, inl (Js.mkError ("Unknown workflow: " +:+ name)))) /\
  (forall name,
     nameOf args = Some name -> name <> "" ->
     is_Some (workflowRegistry !! name) ->
     runners !! name = None ->
     ObjectLiteral.inherited name = None ->
     Eff.run (run input args ctx)
     = (map Pull input, inl (Js.mkError ("Workflow runner not implemented: " +:+ name)))) /\
  (forall name text,
     nameOf args = Some name -> name <> "" ->
     is_Some (workflowRegistry !! name) ->
     is_Some (runners !! name) ->
     argsJson args = Some text -> text <> "" ->
     JSON_parse text = None ->
     Eff.run (run input args ctx)
     = (map Pull input, inl (Js.mkError "workflows.run --args-json must be valid JSON"))) /\
  (forall name runner workflowArgs result,
     nameOf args = Some name -> name <> "" ->
     is_Some (workflowRegistry !! name) ->
     runners !! name = Some runner ->
     (if Js.truthy (argsJson args)
      then JSON_parse (default "" (argsJson args)) = Some workflowArgs
      else workflowArgs = JObj []) ->
     runner workflowArgs ctx = inr result ->
     Eff.run (run input args ctx)
     = (map Pull input ++ [RunnerCall name workflowArgs], inr [result])).
Proof.
  repeat split.
  - intros Hfalsy. unfold Eff.run, WorkflowsRun.run, Eff.bind, Eff.emitAll.
    now rewrite Hfalsy.
  - intros name Hn Hne Hreg Hinh. rewrite (run_named _ _ _ name Hn Hne).
    unfold ObjectLiteral.get. now rewrite Hreg, Hinh.
  - intros name Hn Hne [meta Hreg] Hrun Hinh. rewrite (run_named _ _ _ name Hn Hne).
    unfold ObjectLiteral.get, Runner, Js.Result in *. now rewrite Hreg, Hrun, Hinh.
  - intros name text Hn Hne [meta Hreg] [runner Hrun] Hjson Htext Hparse.
    rewrite (run_named _ _ _ name Hn Hne).
    unfold ObjectLiteral.get, Runner, Js.Result in *. rewrite Hreg, Hrun, Hjson.
    cbn [Js.truthy from_option id]. apply String.eqb_neq in Htext as ->. cbn [negb].
    now rewrite Hparse.
  - intros name runner workflowArgs result Hn Hne [meta Hreg] Hrun Hargs Hresult.
    rewrite (run_named _ _ _ name Hn Hne).
    unfold ObjectLiteral.get, Runner, Js.Result in *. rewrite Hreg, Hrun.
    destruct (Js.truthy (argsJson args)).
    + rewrite Hargs. cbn [call]. now rewrite Hresult.
    + subst workflowArgs. cbn [call]. now rewrite Hresult.
Qed.

End Command.

Local Abbreviation sampleRegistry := Scenario.workflowRegistry.
Local Abbreviation sampleRunner := Scenario.workflowRunner.
Local Abbreviation sampleRun :=
  (WorkflowsRun.run unit unit sampleRegistry sampleRunner sampleRunner sampleRunner Json.parse
     Scenario.callInherited).

(** C9 as stated fails: an [--args-json] that is present
    with the empty string as its value is not valid JSON, yet the command
    does not throw; it runs the workflow on the empty object. *)
Lemma empty_args_json_is_ignored :
  Json.parse "" = None /\
  Eff.run (sampleRun [JNum 7]
             {| name := Some "email.triage"; positional := []; argsJson := Some "" |} tt)
  = ([Pull (JNum 7); RunnerCall "email.triage" (JObj [])], inr [JArr [JObj []]]).
Proof. split; vm_compute; reflexivity. Qed.

(** A name inherited from [Object.prototype] is found in both tables
    although it is a key of neither: for [constructor] the command calls
    [Object] on [{ args, ctx }] and yields that object, where an unknown
    name such as [nightly] is refused. *)
Lemma inherited_name_is_looked_up :
  sampleRegistry !! "constructor" = None /\
  Eff.run (sampleRun [JNum 7]
             {| name := Some "constructor"; positional := []; argsJson := None |} tt)
  = ([Pull (JNum 7); RunnerCall "constructor" (JObj [])],
     inr [JObj [("args", JObj []); ("ctx", JObj [])]]) /\
  Eff.run (sampleRun [JNum 7]
             {| name := Some "nightly"; positional := []; argsJson := None |} tt)
  = ([Pull (JNum 7)], inl (Js.mkError "Unknown workflow: nightly")).
Proof. repeat split; vm_compute; reflexivity. Qed.

Lemma workflows_run_outcomes_witness :
  Eff.run (sampleRun [JNum 7]
             {| name := None; positional := ["email.triage"]; argsJson := Some "[1]" |} tt)
  = ([Pull (JNum 7); RunnerCall "email.triage" (JArr [JNum 1])], inr [JArr [JArr [JNum 1]]]) /\
  Eff.run (sampleRun [JNum 7]
             {| name := Some "email.triage"; positional := []; argsJson := Some "{" |} tt)
  = ([Pull (JNum 7)], inl (Js.mkError "workflows.run --args-json must be valid JSON")) /\
  Eff.run (sampleRun [JNum 7] {| name := None; positional := []; argsJson := None |} tt)
  = ([Pull (JNum 7)], inl (Js.mkError "workflows.run requires --name")) /\
  Eff.run (sampleRun [JNum 7] {| name := Some "nightly"; positional := []; argsJson := None |} tt)
  = ([Pull (JNum 7)], inl (Js.mkError "Unknown workflow: nightly")).
Proof.
  split; [|split; [|split]].
  - destruct (workflows_run_outcomes unit unit sampleRegistry sampleRunner sampleRunner
                sampleRunner Json.parse Scenario.callInherited [JNum 7]
                {| name := None; positional := ["email.triage"]; argsJson := Some "[1]" |} tt)
      as (_ & _ & _ & _ & Hruns).
    apply (Hruns "email.triage" sampleRunner (JArr [JNum 1]) (JArr [JArr [JNum 1]])).
    + reflexivity.
    + discriminate.
    + exists tt. vm_compute. reflexivity.
    + vm_compute. reflexivity.
    + vm_compute. reflexivity.
    + reflexivity.
  - destruct (workflows_run_outcomes unit unit sampleRegistry sampleRunner sampleRunner
                sampleRunner Json.parse Scenario.callInherited [JNum 7]
                {| name := Some "email.triage"; positional := []; argsJson := Some "{" |} tt)
      as (_ & _ & _ & Hjson & _).
    apply (Hjson "email.triage" "{").
    + reflexivity.
    + discriminate.
    + exists tt. vm_compute. reflexivity.
    + exists sampleRunner. vm_compute. reflexivity.
    + reflexivity.
    + discriminate.
    + vm_compute. reflexivity.
  - destruct (workflows_run_outcomes unit unit sampleRegistry sampleRunner sampleRunner
                sampleRunner Json.parse Scenario.callInherited [JNum 7]
                {| name := None; positional := []; argsJson := None |} tt)
      as (Hnone & _).
    apply Hnone. reflexivity.
  - destruct (workflows_run_outcomes unit unit sampleRegistry sampleRunner sampleRunner
                sampleRunner Json.parse Scenario.callInherited [JNum 7]
                {| name := Some "nightly"; positional := []; argsJson := None |} tt)
      as (_ & Hunknown & _).
    apply (Hunknown "nightly").
    + reflexivity.
    + discriminate.
    + vm_compute. reflexivity.
    + vm_compute. reflexivity.
Defined.

End WorkflowsRunFacts.

(** ** More on the front end *)

Module CliMore.
Import Json Model Cli Trace.

(** A token that [parseModeAndStrip] treats as an ordinary one. *)
Local Abbreviation plain :=
  (fun tok : string => String.eqb tok "--mode" = false /\ String.prefix "--mode=" tok = false).

Lemma sliceString_nonempty_or_human (tok : string) :
  (if String.eqb (Js.sliceString 7 tok) "" then "human" else Js.sliceString 7 tok) <> "".
Proof.
  destruct (String.eqb_spec (Js.sliceString 7 tok) ""); [discriminate | assumption].
Qed.

(** The loop of [parseModeAndStrip]: what it appends to [rest] is a
    subsequence of the tokens it reads, free of mode flags, and a
    non-empty mode stays non-empty. *)
Lemma parseModeAndStrip_loop_invariant (n : nat) :
  forall argv mode rest, (List.length argv <= n)%nat ->
    exists kept,
      snd (parseModeAndStrip_loop argv mode rest) = rest ++ kept /\
      kept `sublist_of` argv /\
      Forall plain kept /\
      (mode <> "" -> fst (parseModeAndStrip_loop argv mode rest) <> "").
Proof.
  induction n as [|n IH]; intros argv mode rest Hlen.
  - destruct argv; [|cbn in Hlen; lia].
    exists []. cbn. rewrite app_nil_r. repeat split; [constructor | constructor | auto].
  - destruct argv as [|tok argv].
    { exists []. cbn. rewrite app_nil_r. repeat split; [constructor | constructor | auto]. }
    cbn [List.length] in Hlen. cbn [parseModeAndStrip_loop].
    destruct (String.eqb tok "--mode") eqn:Hm.
    + destruct argv as [|value argv].
      { exists []. cbn. rewrite app_nil_r. repeat split; [apply sublist_nil_l | constructor | auto]. }
      destruct (Js.truthy (Some value)) eqn:Hv.
      * destruct (IH argv value rest ltac:(cbn [List.length] in Hlen; lia))
          as (kept & Hk & Hsub & Hplain & Hmode).
        exists kept. repeat split; try assumption.
        -- now apply sublist_cons, sublist_cons.
        -- intros _. apply Hmode. cbn in Hv. intros ->. discriminate Hv.
      * destruct (IH (value :: argv) mode rest ltac:(lia)) as (kept & Hk & Hsub & Hplain & Hmode).
        exists kept. repeat split; try assumption. now apply sublist_cons.
    + destruct (String.prefix "--mode=" tok) eqn:Hp.
      * destruct (IH argv (if String.eqb (Js.sliceString 7 tok) "" then "human"
                           else Js.sliceString 7 tok) rest ltac:(lia))
          as (kept & Hk & Hsub & Hplain & Hmode).
        exists kept. repeat split; try assumption.
        -- now apply sublist_cons.
        -- intros _. apply Hmode, sliceString_nonempty_or_human.
      * destruct (IH argv mode (rest ++ [tok]) ltac:(lia)) as (kept & Hk & Hsub & Hplain & Hmode).
        exists (tok :: kept). repeat split; try assumption.
        -- rewrite Hk, <- app_assoc. reflexivity.
        -- now apply sublist_skip.
        -- constructor; [split; assumption | assumption].
Qed.

(** X1.  The tokens [parseModeAndStrip] keeps are a subsequence of
    [argv], in order, and none of them is a mode flag: neither [--mode]
    nor a token that starts with [--mode=]. *)
Theorem parseModeAndStrip_rest (argv : list string) :
  snd (parseModeAndStrip argv) `sublist_of` argv /\
  Forall (fun tok => String.eqb tok "--mode" = false /\
                     String.prefix "--mode=" tok = false)
         (snd (parseModeAndStrip argv)).
Proof.
  destruct (parseModeAndStrip_loop_invariant (List.length argv) argv "human" [] (le_n _))
    as (kept & Hk & Hsub & Hplain & _).
  unfold parseModeAndStrip. rewrite Hk. cbn [app]. split; assumption.
Qed.

(** X2.  The parsed mode is never the empty string: an empty value
    after [--mode] is not taken, and [--mode=] falls back to [human]. *)
Theorem parseModeAndStrip_mode_nonempty (argv : list string) :
  fst (parseModeAndStrip argv) <> "".
Proof.
  destruct (parseModeAndStrip_loop_invariant (List.length argv) argv "human" [] (le_n _))
    as (_ & _ & _ & _ & Hmode).
  apply Hmode. discriminate.
Qed.

(** X3.  Stripping is idempotent: on the tokens it kept,
    [parseModeAndStrip] finds the default mode and keeps them all. *)
Theorem parseModeAndStrip_idempotent (argv : list string) :
  parseModeAndStrip (snd (parseModeAndStrip argv)) = ("human", snd (parseModeAndStrip argv)).
Proof.
  destruct (parseModeAndStrip_loop_invariant (List.length argv) argv "human" [] (le_n _))
    as (kept & Hk & _ & Hplain & _).
  unfold parseModeAndStrip. rewrite Hk. cbn [app].
  now rewrite (CliFacts.parseModeAndStrip_loop_plain _ Hplain).
Qed.

Section Handlers.
Variable parsePipeline : string -> Js.Result Pipeline.
Variable runPipeline : Engine.
Variable encodeToken : TokenPayload -> string.
Variable parseResumeArgs : list string -> Js.Result (option string * bool).
Variable decodeResumeToken : option string -> Js.Result ResumeContinuation.
Variable commandHelp : string -> option string.

Local Abbreviation handleRun := (Cli.handleRun parsePipeline runPipeline encodeToken).
Local Abbreviation handleResume :=
  (Cli.handleResume runPipeline encodeToken parseResumeArgs decodeResumeToken).
Local Abbreviation runCli :=
  (Cli.runCli parsePipeline runPipeline encodeToken parseResumeArgs decodeResumeToken
     commandHelp).

(** The log of [handleRun], case by case. *)
Lemma handleRun_log (argv : list string) :
  let mode := fst (parseModeAndStrip argv) in
  let rest := snd (parseModeAndStrip argv) in
  match parsePipeline (Js.join " " rest) with
  | inl err =>
      exists report,
        Eff.run (handleRun argv) = (report, inr tt) /\
        engineCalls report = [] /\ stagesRun report = []
  | inr pl =>
      let a := {| pipeline := pl; mode := mode; input := None |} in
      exists report,
        Eff.run (handleRun argv)
        = (EngineCall a :: map StageRun (fst (runPipeline a)) ++ report, inr tt) /\
        engineCalls report = [] /\ stagesRun report = []
  end.
Proof.
  unfold Eff.run, Cli.handleRun.
  destruct (parseModeAndStrip argv) as [mode rest]. cbn [fst snd].
  destruct (parsePipeline (Js.join " " rest)) as [err|pl].
  - destruct (String.eqb mode "tool"); eexists; (split; [reflexivity|]); split; reflexivity.
  - cbn zeta.
    set (a := {| pipeline := pl; mode := mode; input := None |}).
    destruct (runPipeline a) as [called [err|output]] eqn:Hrun.
    + CliFacts.step_engine Hrun.
      destruct (String.eqb mode "tool"); eexists;
        (split; [rewrite <- !app_assoc; cbn [app fst]; reflexivity|]); split; reflexivity.
    + CliFacts.step_engine Hrun.
      destruct (String.eqb mode "tool").
      * destruct (CliFacts.reportToolResult_run encodeToken pl output
                    (EngineCall a :: map StageRun called)) as (envelope & _ & Henv).
        rewrite Henv. eexists. split; [reflexivity|]. split; reflexivity.
      * destruct (rendered output); cbn [negb].
        -- exists []. rewrite app_nil_r. repeat split.
        -- eexists. split; [rewrite <- !app_assoc; cbn [app]; reflexivity|].
           split; reflexivity.
Qed.

(** X4.  [handleRun] never lets an exception out: in every mode, and
    whatever the parser and the engine do, it returns normally. *)
Theorem handleRun_never_throws (argv : list string) :
  Eff.outcome (handleRun argv) = inr tt.
Proof.
  pose proof (handleRun_log argv) as H. cbn zeta in H. unfold Eff.outcome.
  destruct (parsePipeline _) as [err|pl]; destruct H as (report & -> & _); reflexivity.
Qed.

(** X5.  [handleRun] calls the engine at most once: not at all when the
    pipeline does not parse, and otherwise exactly once, with the parsed
    pipeline, the parsed mode and no input; the stages that run are the
    ones that call runs. *)
Theorem handleRun_engine_calls (argv : list string) :
  let mode := fst (parseModeAndStrip argv) in
  let rest := snd (parseModeAndStrip argv) in
  match parsePipeline (Js.join " " rest) with
  | inl err =>
      engineCalls (Eff.events (handleRun argv)) = [] /\
      stagesRun (Eff.events (handleRun argv)) = []
  | inr pl =>
      let a := {| pipeline := pl; mode := mode; input := None |} in
      engineCalls (Eff.events (handleRun argv)) = [a] /\
      stagesRun (Eff.events (handleRun argv)) = fst (runPipeline a)
  end.
Proof.
  pose proof (handleRun_log argv) as H. cbn zeta in H |- *. unfold Eff.events.
  destruct (parsePipeline _) as [err|pl]; destruct H as (report & -> & Hcalls & Hstages).
  - split; assumption.
  - cbn [fst engineCalls stagesRun].
    rewrite CliFacts.engineCalls_app, CliFacts.engineCalls_stages, Hcalls.
    rewrite CliFacts.stagesRun_app, CliFacts.stagesRun_stages, Hstages.
    split; [reflexivity | apply app_nil_r].
Qed.

(** X6.  In tool mode a run that did not halt, or that produced
    anything but a single item, is reported with status [ok] and all of
    its items: only a halt on one item can ask for approval. *)
Theorem tool_run_ok_envelope (argv rest : list string) (pl : Pipeline)
    (called : list Invocation) (output : RunResult) :
  parseModeAndStrip argv = ("tool", rest) ->
  parsePipeline (Js.join " " rest) = inr pl ->
  runPipeline {| pipeline := pl; mode := "tool"; input := None |} = (called, inr output) ->
  halted output = false \/ List.length (items output) <> 1%nat ->
  stdoutOf (Eff.events (handleRun argv))
  = [JsonText (JObj [("ok", JBool true); ("status", JStr "ok");
                     ("output", JArr (items output)); ("requiresApproval", JNull)]);
     Text nl].
Proof.
  intros Hmode Hparse Hrun Hplain.
  assert (Hnone : approvalOf output = None).
  { unfold approvalOf. destruct Hplain as [-> | Hlen]; [reflexivity|].
    destruct (halted output); [|reflexivity].
    destruct (items output) as [|item [|item' more]].
    - reflexivity.
    - exfalso. apply Hlen. reflexivity.
    - now destruct item. }
  unfold Eff.events, Eff.run, Cli.handleRun. rewrite Hmode, Hparse.
  CliFacts.step_engine Hrun.
  unfold reportToolResult. rewrite Hnone. CliFacts.unfold_effects.
  cbn [fst]. rewrite <- !app_assoc. cbn [app stdoutOf].
  now rewrite CliFacts.stdoutOf_app, CliFacts.stdoutOf_stages.
Qed.

(** X7.  On the resume path a failure of the engine is caught: it is
    reported in one [runtime_error] envelope with exit code 1, after the
    stages that ran, and [handleResume] returns normally. *)
Theorem resume_runtime_error (argv : list string) (token : option string)
    (c : ResumeContinuation) (called : list Invocation) (err : Js.Error) :
  parseResumeArgs argv = inr (token, true) ->
  decodeResumeToken token = inr c ->
  runPipeline {| pipeline := Js.slice (rcPipeline c) (resumeAtIndex c);
                 mode := "tool"; input := Some (rcItems c) |} = (called, inl err) ->
  Eff.run (handleResume argv)
  = (EngineCall {| pipeline := Js.slice (rcPipeline c) (resumeAtIndex c);
                   mode := "tool"; input := Some (rcItems c) |}
     :: map StageRun called ++
     [Stdout (JsonText
                (JObj [("ok", JBool false);
                       ("error", JObj [("type", JStr "runtime_error");
                                       ("message", JStr (Js.messageOf err))])]));
      Stdout (Text nl);
      ExitCode 1],
     inr tt).
Proof.
  intros Hargs Hdecode Hrun.
  unfold Eff.run, Cli.handleResume, Eff.bind at 1, Eff.lift at 1. rewrite Hargs.
  unfold Eff.bind at 1, Eff.lift at 1. rewrite Hdecode. cbn [negb].
  CliFacts.step_engine Hrun. unfold errorEnvelope.
  rewrite <- !app_assoc. reflexivity.
Qed.

(** X8.  When a resumed run halts again on a sole approval request, the
    new token holds only the stages that were left, with the index after
    the new halt counted from the first of them, and the new approval's
    items and prompt. *)
Theorem resumed_halt_token (argv : list string) (token : option string)
    (c : ResumeContinuation) (called : list Invocation) (output : RunResult)
    (approval : list (string * Json.t)) :
  parseResumeArgs argv = inr (token, true) ->
  decodeResumeToken token = inr c ->
  runPipeline {| pipeline := Js.slice (rcPipeline c) (resumeAtIndex c);
                 mode := "tool"; input := Some (rcItems c) |} = (called, inr output) ->
  halted output = true ->
  items output = [JObj approval] ->
  lookupProp "type" approval = Some (JStr "approval_request") ->
  stdoutOf (Eff.events (handleResume argv))
  = [JsonText
       (JObj [("ok", JBool true); ("status", JStr "needs_approval");
              ("output", JArr []);
              ("requiresApproval",
               JObj (setProp "resumeToken"
                       (JStr (encodeToken
                                {| v := 1;
                                   tpPipeline := Js.slice (rcPipeline c) (resumeAtIndex c);
                                   tpResumeAtIndex :=
                                     match haltedAt output with
                                     | Some h => index h + 1
                                     | None => 0
                                     end;
                                   tpItems := lookupProp "items" approval;
                                   tpPrompt := lookupProp "prompt" approval |}))
                       approval))]);
     Text nl].
Proof.
  intros Hargs Hdecode Hrun Hhalt Hitems Htype.
  unfold Eff.events, Eff.run, Cli.handleResume, Eff.bind at 1, Eff.lift at 1. rewrite Hargs.
  unfold Eff.bind at 1, Eff.lift at 1. rewrite Hdecode. cbn [negb].
  CliFacts.step_engine Hrun.
  unfold reportToolResult, approvalOf. rewrite Hhalt, Hitems, Htype.
  cbn [String.eqb Ascii.eqb Bool.eqb]. CliFacts.unfold_effects.
  cbn [fst]. rewrite <- !app_assoc. cbn [app stdoutOf].
  rewrite CliFacts.stdoutOf_app, CliFacts.stdoutOf_stages.
  unfold approvalEnvelope, nextIndex. cbn [app stdoutOf].
  destruct (haltedAt output); reflexivity.
Qed.

(** Slicing twice from non-negative starts is slicing once from their
    sum. *)
Lemma slice_slice {A : Type} (a : list A) (i j : Z) :
  0 <= i -> 0 <= j -> Js.slice (Js.slice a i) j = Js.slice a (i + j).
Proof.
  intros Hi Hj. unfold Js.slice.
  destruct (Z.ltb_spec i 0); [lia|]. destruct (Z.ltb_spec j 0); [lia|].
  destruct (Z.ltb_spec (i + j) 0); [lia|].
  rewrite length_drop, drop_drop.
  destruct (Z.le_gt_cases (i + j) (Z.of_nat (List.length a))).
  - f_equal. lia.
  - rewrite !drop_ge; [reflexivity | lia | lia].
Qed.

(** X9.  Resumes chain: when the token being resumed was written by a
    resume of an earlier continuation, so that its pipeline is the earlier
    one sliced at the earlier index, the engine is called with the earlier
    pipeline sliced at the sum of the two indices. *)
Theorem chained_resume_slices_once (argv : list string) (token : option string)
    (earlier c : ResumeContinuation) :
  parseResumeArgs argv = inr (token, true) ->
  decodeResumeToken token = inr c ->
  rcPipeline c = Js.slice (rcPipeline earlier) (resumeAtIndex earlier) ->
  0 <= resumeAtIndex earlier ->
  0 <= resumeAtIndex c ->
  engineCalls (Eff.events (handleResume argv))
  = [{| pipeline := Js.slice (rcPipeline earlier) (resumeAtIndex earlier + resumeAtIndex c);
        mode := "tool";
        input := Some (rcItems c) |}].
Proof.
  intros Hargs Hdecode Hpl Hearlier Hc.
  rewrite <- slice_slice by assumption. rewrite <- Hpl.
  unfold Eff.events, Eff.run, Cli.handleResume, Eff.bind at 1, Eff.lift at 1. rewrite Hargs.
  unfold Eff.bind at 1, Eff.lift at 1. rewrite Hdecode. cbn [negb].
  set (a := {| pipeline := Js.slice (rcPipeline c) (resumeAtIndex c);
               mode := "tool"; input := Some (rcItems c) |}).
  destruct (runPipeline a) as [called [err|output]] eqn:Hrun.
  - CliFacts.step_engine Hrun. rewrite <- !app_assoc. cbn [app fst engineCalls].
    now rewrite CliFacts.engineCalls_app, CliFacts.engineCalls_stages.
  - CliFacts.step_engine Hrun.
    destruct (CliFacts.reportToolResult_run encodeToken
                (Js.slice (rcPipeline c) (resumeAtIndex c)) output
                (EngineCall a :: map StageRun called)) as (envelope & _ & Henv).
    rewrite Henv. cbn [fst app engineCalls].
    now rewrite CliFacts.engineCalls_app, CliFacts.engineCalls_stages.
Qed.

(** X10.  With no argument, or with [-h] or [--help] anywhere among the
    arguments, the front end prints the help text and does nothing else:
    no pipeline is parsed or run and no envelope is written, also for
    [run --mode tool] and for [resume]. *)
Theorem help_flag_wins (argv : list string) :
  argv = [] \/ includes "-h" argv = true \/ includes "--help" argv = true ->
  Eff.run (runCli argv) = ([Stdout (Text helpText)], inr tt).
Proof.
  intros Hhelp. unfold Cli.runCli.
  destruct argv as [|cmd args]; [reflexivity|].
  destruct Hhelp as [Hnil | [Hh | Hh]]; [discriminate Hnil | |]; rewrite Hh;
    rewrite ?orb_true_r; reflexivity.
Qed.

(** X11.  [help <topic>] prints the help of a command of the registry;
    for a topic the registry does not know it writes [Unknown command]
    to standard error and sets exit code 2; without a topic it prints the
    general help text. *)
Theorem help_topic (args : list string) :
  includes "-h" args = false -> includes "--help" args = false ->
  Eff.run (runCli ("help" :: args))
  = match args with
    | [] => ([Stdout (Text helpText)], inr tt)
    | topic :: _ =>
        if String.eqb topic "" then ([Stdout (Text helpText)], inr tt)
        else
          match commandHelp topic with
          | Some help => ([Stdout (Text help)], inr tt)
          | None => ([Stderr ("Unknown command: " +:+ topic +:+ nl); ExitCode 2], inr tt)
          end
    end.
Proof.
  intros Hh Hhelp. unfold Cli.runCli.
  cbn [includes existsb]. unfold includes in Hh, Hhelp. rewrite Hh, Hhelp.
  cbn [String.eqb Ascii.eqb Bool.eqb orb].
  destruct args as [|topic more]; [reflexivity|].
  cbn [Js.truthy]. destruct (String.eqb topic ""); [reflexivity|]. cbn [negb].
  destruct (commandHelp topic); reflexivity.
Qed.

(** X12.  The [run] subcommand is optional: arguments whose first token
    is not [help], [run] or [resume] are handled the same with and without
    a leading [run]. *)
Theorem run_subcommand_optional (cmd : string) (args : list string) :
  cmd <> "help" -> cmd <> "run" -> cmd <> "resume" ->
  runCli ("run" :: cmd :: args) = runCli (cmd :: args).
Proof.
  intros Hhelp Hrun Hresume. unfold Cli.runCli.
  apply String.eqb_neq in Hhelp, Hrun, Hresume.
  rewrite Hhelp, Hrun, Hresume.
  cbn [includes existsb String.eqb Ascii.eqb Bool.eqb orb].
  fold (includes "-h" (cmd :: args)). fold (includes "--help" (cmd :: args)).
  now destruct (includes "-h" (cmd :: args) || includes "--help" (cmd :: args))%bool.
Qed.

End Handlers.

End CliMore.

(** ** More on workflows.run *)

Module WorkflowsRunMore.
Import Json WorkflowsRun.

Section Command.
Variable Ctx : Type.
Variable Meta : Type.
Variable workflowRegistry : gmap string Meta.
Variable runEmailTriageWorkflow : Runner Ctx.
Variable runGithubPrMonitorWorkflow : Runner Ctx.
Variable runGithubPrMonitorNotifyWorkflow : Runner Ctx.
Variable JSON_parse : string -> option Json.t.
Variable callInherited : ObjectLiteral.Inherited -> Runner Ctx.

Local Abbreviation runners :=
  (WorkflowsRun.runners Ctx runEmailTriageWorkflow runGithubPrMonitorWorkflow
     runGithubPrMonitorNotifyWorkflow).
Local Abbreviation run :=
  (WorkflowsRun.run Ctx Meta workflowRegistry runEmailTriageWorkflow
     runGithubPrMonitorWorkflow runGithubPrMonitorNotifyWorkflow JSON_parse
     callInherited).

(** X13.  [--name] takes precedence over the positional argument, also
    when it is empty: with [args.name] given the positional arguments do
    not matter, and an empty [--name] is refused even though a positional
    name is there. *)
Theorem name_flag_precedence (input : list Json.t) (n : string)
    (positional positional' : list string) (argsJson : option string) (ctx : Ctx) :
  run input {| name := Some n; positional := positional; argsJson := argsJson |} ctx
  = run input {| name := Some n; positional := positional'; argsJson := argsJson |} ctx /\
  Eff.run (run input {| name := Some ""; positional := positional; argsJson := argsJson |} ctx)
  = (map Pull input, inl (Js.mkError "workflows.run requires --name")).
Proof. split; reflexivity. Qed.

(** What [run] does after draining does not depend on the log it
    starts from. *)
Lemma run_after_drain (input : list Json.t) (args : Args) (ctx : Ctx) :
  Eff.run (run input args ctx)
  = (map Pull input ++ fst (Eff.run (run [] args ctx)), snd (Eff.run (run [] args ctx))).
Proof.
  unfold Eff.run, WorkflowsRun.run, Eff.bind at 1, Eff.emitAll.
  unfold Eff.bind at 3, Eff.emitAll. cbn [map app].
  destruct (negb (Js.truthy (nameOf args))); [now rewrite app_nil_r|].
  destruct (ObjectLiteral.get (workflowRegistry !! _) _); [|now rewrite app_nil_r].
  destruct (ObjectLiteral.get _ _) as [runner|]; [|now rewrite app_nil_r].
  unfold asStream, Eff.bind, Eff.emit, Eff.lift, Eff.ret, Eff.throw.
  destruct (Js.truthy (argsJson args)).
  - destruct (JSON_parse _) as [parsed|]; [|now rewrite app_nil_r].
    destruct (call _ _ runner parsed ctx); reflexivity.
  - destruct (call _ _ runner (JObj []) ctx); reflexivity.
Qed.

(** X14.  The input is only drained: apart from the items pulled, the
    command does on any input what it does on the empty one, with the same
    runner call and the same result or error. *)
Theorem input_is_ignored (input : list Json.t) (args : Args) (ctx : Ctx) :
  Eff.events (run input args ctx) = map Pull input ++ Eff.events (run [] args ctx) /\
  Eff.outcome (run input args ctx) = Eff.outcome (run [] args ctx).
Proof.
  unfold Eff.events, Eff.outcome. rewrite run_after_drain. split; reflexivity.
Qed.

(** X15.  A failure of the runner is the failure of the command: the
    error the runner throws leaves [run] unchanged, after the one runner
    call, and no output is produced. *)
Theorem runner_failure_propagates (input : list Json.t) (args : Args) (ctx : Ctx)
    (name : string) (runner : Runner Ctx) (workflowArgs : Json.t) (err : Js.Error) :
  nameOf args = Some name -> name <> "" ->
  is_Some (workflowRegistry !! name) ->
  runners !! name = Some runner ->
  (if Js.truthy (argsJson args)
   then JSON_parse (default "" (argsJson args)) = Some workflowArgs
   else workflowArgs = JObj []) ->
  runner workflowArgs ctx = inl err ->
  Eff.run (run input args ctx)
  = (map Pull input ++ [RunnerCall name workflowArgs], inl err).
Proof.
  intros Hn Hne [meta Hreg] Hrun Hargs Herr.
  unfold Eff.run, WorkflowsRun.run, Eff.bind at 1, Eff.emitAll.
  rewrite Hn. cbn [Js.truthy]. apply String.eqb_neq in Hne as ->.
  cbn [negb from_option id app]. rewrite Hreg.
  unfold Runner, Js.Result in *. rewrite Hrun.
  unfold ObjectLiteral.get, asStream, Eff.bind, Eff.emit, Eff.lift, Eff.ret, Eff.throw.
  destruct (Js.truthy (argsJson args)).
  - rewrite Hargs. cbn beta iota delta [call]. now rewrite Herr.
  - subst workflowArgs. cbn beta iota delta [call]. now rewrite Herr.
Qed.

(** None of the three runner keys is a name of [Object.prototype]. *)
Lemma inherited_not_runner (name : string) (member : ObjectLiteral.Inherited) :
  ObjectLiteral.inherited name = Some member -> name <> "" /\ runners !! name = None.
Proof.
  unfold ObjectLiteral.inherited, ObjectLiteral.inheritedNames, ObjectLiteral.assoc.
  repeat (destruct (String.eqb _ name) eqn:Heq;
          [apply String.eqb_eq in Heq; subst name; intros _; split;
           [discriminate | vm_compute; reflexivity]
          | clear Heq]).
  discriminate.
Qed.

(** X25.  A name that [Object.prototype] defines, such as
    [constructor] or [toString], is refused neither as an unknown workflow
    nor as one without a runner: both lookups find the inherited member,
    and the command calls it as the runner, on the parsed arguments or on
    the empty object; what that call returns or throws is the command's
    outcome. *)
Theorem inherited_name_is_called (input : list Json.t) (args : Args) (ctx : Ctx)
    (name : string) (member : ObjectLiteral.Inherited) (workflowArgs : Json.t) :
  nameOf args = Some name ->
  ObjectLiteral.inherited name = Some member ->
  (if Js.truthy (argsJson args)
   then JSON_parse (default "" (argsJson args)) = Some workflowArgs
   else workflowArgs = JObj []) ->
  Eff.run (run input args ctx)
  = (map Pull input ++ [RunnerCall name workflowArgs],
     match callInherited member workflowArgs ctx with
     | inl err => inl err
     | inr result => inr [result]
     end).
Proof.
  intros Hn Hinh Hargs.
  destruct (inherited_not_runner name member Hinh) as [Hne Hrun].
  unfold Eff.run, WorkflowsRun.run, Eff.bind at 1, Eff.emitAll.
  rewrite Hn. cbn [Js.truthy]. apply String.eqb_neq in Hne as ->.
  cbn [negb from_option id app].
  unfold Runner, Js.Result in *. rewrite Hrun.
  unfold ObjectLiteral.get. rewrite Hinh. cbn [option_map].
  destruct (workflowRegistry !! name) as [meta|].
  all: cbn beta iota.
  all: unfold asStream, Eff.bind, Eff.emit, Eff.lift, Eff.ret, Eff.throw.
  all: destruct (Js.truthy (argsJson args));
    [rewrite Hargs | subst workflowArgs]; cbn beta iota delta [call];
    now destruct (callInherited member _ ctx).
Qed.

End Command.

Local Abbreviation failingRun :=
  (WorkflowsRun.run unit unit Scenario.workflowRegistry
     (fun _ _ => inl (Js.mkError "boom")) Scenario.workflowRunner Scenario.workflowRunner
     Json.parse Scenario.callInherited).

Lemma runner_failure_propagates_witness :
  Eff.run (failingRun [JNum 7]
             {| name := Some "email.triage"; positional := []; argsJson := None |} tt)
  = ([Pull (JNum 7); RunnerCall "email.triage" (JObj [])], inl (Js.mkError "boom")).
Proof.
  apply (runner_failure_propagates unit unit Scenario.workflowRegistry
           (fun _ _ => inl (Js.mkError "boom")) Scenario.workflowRunner
           Scenario.workflowRunner Json.parse Scenario.callInherited [JNum 7]
           {| name := Some "email.triage"; positional := []; argsJson := None |} tt
           "email.triage" (fun _ _ => inl (Js.mkError "boom")) (JObj [])
           (Js.mkError "boom")).
  - reflexivity.
  - discriminate.
  - exists tt. vm_compute. reflexivity.
  - vm_compute. reflexivity.
  - reflexivity.
  - reflexivity.
Defined.

Lemma inherited_name_is_called_witness :
  Eff.run (WorkflowsRun.run unit unit Scenario.workflowRegistry Scenario.workflowRunner
             Scenario.workflowRunner Scenario.workflowRunner Json.parse
             Scenario.callInherited [JNum 7]
             {| name := None; positional := ["toString"]; argsJson := Some "[1]" |} tt)
  = ([Pull (JNum 7); RunnerCall "toString" (JArr [JNum 1])],
     inr [JStr "[object Undefined]"]).
Proof.
  apply (inherited_name_is_called unit unit Scenario.workflowRegistry
           Scenario.workflowRunner Scenario.workflowRunner Scenario.workflowRunner
           Json.parse Scenario.callInherited [JNum 7]
           {| name := None; positional := ["toString"]; argsJson := Some "[1]" |} tt
           "toString" ObjectLiteral.ToString (JArr [JNum 1])).
  - reflexivity.
  - reflexivity.
  - vm_compute. reflexivity.
Defined.

End WorkflowsRunMore.

(** ** clawd.invoke *)

Module ClawdInvokeFacts.
Import Json ClawdInvoke.

Lemma fetch_not_pulled (r : Request) (input : list Json.t) : ~ In (Fetch r) (map Pull input).
Proof. induction input as [|x input IH]; cbn; [tauto | intros [H|H]; [discriminate H | tauto]]. Qed.

Section Command.
Variable trim : string -> string.
Variable newURL : string -> string -> Js.Result string.
Variable fetch : Request -> Js.Result Response.
Variable JSON_parse : string -> option Json.t.

Local Abbreviation run := (ClawdInvoke.run trim newURL fetch JSON_parse).

(** What the command makes of the response to the request it sent. *)
Local Abbreviation afterFetch request :=
  (match fetch request with
   | inl err => inl err
   | inr res =>
       match resText res with
       | inl err => inl err
       | inr text =>
           if negb (resOk res) then
             inl (Js.mkError ("clawd.invoke failed (" +:+ showStatus (resStatus res) +:+ "): "
                              +:+ String.substring 0 400 text))
           else if String.eqb text "" then inr [JNull]
           else
             match JSON_parse text with
             | Some parsed => inr (itemsOf parsed)
             | None => inl (Js.mkError "clawd.invoke expected JSON response")
             end
       end
   end : Js.Result (list Json.t)).

(** Either the command throws before it sends anything, or it sends
    exactly one request, built from checked arguments. *)
Lemma run_cases (input : list Json.t) (args : Args) (env : Env) :
  (exists err, Eff.run (run input args env) = (map Pull input, inl err)) \/
  (exists request toolArgs,
     trim (orElse (url args) (CLAWD_URL env)) <> "" /\
     Js.truthy (tool args) = true /\ Js.truthy (action args) = true /\
     (if Js.truthy (argsJson args)
      then JSON_parse (default "" (argsJson args)) = Some toolArgs
      else toolArgs = JObj []) /\
     newURL "/tools/invoke" (trim (orElse (url args) (CLAWD_URL env))) = inr (endpoint request) /\
     method request = "POST" /\
     headers request
     = ("content-type", "application/json") ::
       (if String.eqb (trim (orElse (token args) (CLAWD_TOKEN env))) "" then []
        else [("authorization", "Bearer " +:+ trim (orElse (token args) (CLAWD_TOKEN env)))]) /\
     body request = JObj [("tool", JStr (default "" (tool args)));
                          ("action", JStr (default "" (action args)));
                          ("args", toolArgs)] /\
     Eff.run (run input args env) = (map Pull input ++ [Fetch request], afterFetch request)).
Proof.
  unfold Eff.run, ClawdInvoke.run, Eff.bind at 1, Eff.emitAll. cbn [app].
  destruct (String.eqb_spec (trim (orElse (url args) (CLAWD_URL env))) "") as [|Hurl];
    [left; eexists; reflexivity|].
  destruct (Js.truthy (tool args)) eqn:Htool; [|left; eexists; reflexivity].
  destruct (Js.truthy (action args)) eqn:Haction; [|left; eexists; reflexivity].
  cbn [negb orb].
  unfold asStream, Eff.bind, Eff.emit, Eff.lift, Eff.ret, Eff.throw.
  destruct (Js.truthy (argsJson args)) eqn:Hjson;
    [destruct (JSON_parse (default "" (argsJson args))) as [parsed|] eqn:Hparse;
       [|left; eexists; reflexivity] | ];
    (destruct (newURL "/tools/invoke" _) as [e|endpoint] eqn:Hendpoint;
       [left; eexists; reflexivity|]);
    right.
  - eexists {| endpoint := endpoint; method := _; headers := _; body := _ |}, parsed.
    cbn [ClawdInvoke.endpoint method headers body].
    split; [exact Hurl|]. split; [reflexivity|]. split; [reflexivity|].
    split; [reflexivity|]. split; [reflexivity|]. split; [reflexivity|].
    split; [reflexivity|]. split; [reflexivity|].
    destruct (fetch _) as [e|res]; [reflexivity|].
    destruct (resText res) as [e|text]; [reflexivity|].
    destruct (negb (resOk res)); [reflexivity|].
    destruct (String.eqb text ""); [reflexivity|].
    destruct (JSON_parse text); reflexivity.
  - eexists {| endpoint := endpoint; method := _; headers := _; body := _ |}, (JObj []).
    cbn [ClawdInvoke.endpoint method headers body].
    split; [exact Hurl|]. split; [reflexivity|]. split; [reflexivity|].
    split; [reflexivity|]. split; [reflexivity|]. split; [reflexivity|].
    split; [reflexivity|]. split; [reflexivity|].
    destruct (fetch _) as [e|res]; [reflexivity|].
    destruct (resText res) as [e|text]; [reflexivity|].
    destruct (negb (resOk res)); [reflexivity|].
    destruct (String.eqb text ""); [reflexivity|].
    destruct (JSON_parse text); reflexivity.
Qed.

(** X16.  Arguments that do not pass the checks send nothing: without a
    url from [--url] or [CLAWD_URL], without [--tool] or [--action], or
    with an [--args-json] that is not valid JSON, the command throws after
    draining its input and [fetch] is never called. *)
Theorem invalid_arguments_send_nothing (input : list Json.t) (args : Args) (env : Env) :
  (trim (orElse (url args) (CLAWD_URL env)) = "" ->
   Eff.run (run input args env)
   = (map Pull input, inl (Js.mkError "clawd.invoke requires --url or CLAWD_URL"))) /\
  (trim (orElse (url args) (CLAWD_URL env)) <> "" ->
   Js.truthy (tool args) = false \/ Js.truthy (action args) = false ->
   Eff.run (run input args env)
   = (map Pull input, inl (Js.mkError "clawd.invoke requires --tool and --action"))) /\
  (forall text,
     trim (orElse (url args) (CLAWD_URL env)) <> "" ->
     Js.truthy (tool args) = true -> Js.truthy (action args) = true ->
     argsJson args = Some text -> text <> "" ->
     JSON_parse text = None ->
     Eff.run (run input args env)
     = (map Pull input, inl (Js.mkError "clawd.invoke --args-json must be valid JSON"))).
Proof.
  unfold Eff.run, ClawdInvoke.run, Eff.bind at 1, Eff.emitAll. cbn [app].
  split; [|split].
  - intros ->. reflexivity.
  - intros Hurl Hmissing. apply String.eqb_neq in Hurl as ->.
    destruct Hmissing as [-> | ->]; [reflexivity|].
    now rewrite orb_true_r.
  - intros text Hurl Htool Haction Hjson Htext Hparse.
    apply String.eqb_neq in Hurl as ->. rewrite Htool, Haction, Hjson. cbn [negb orb].
    cbn [Js.truthy from_option id]. apply String.eqb_neq in Htext as ->. cbn [negb].
    unfold Eff.bind, Eff.throw. now rewrite Hparse.
Qed.

(** X17.  A flag makes its environment variable irrelevant: with
    [--url] given the command does the same whatever [CLAWD_URL] is, and
    with [--token] given whatever [CLAWD_TOKEN] is. *)
Theorem flags_override_environment (input : list Json.t) (args : Args) (env env' : Env) :
  (is_Some (url args) -> CLAWD_TOKEN env = CLAWD_TOKEN env' ->
   run input args env = run input args env') /\
  (is_Some (token args) -> CLAWD_URL env = CLAWD_URL env' ->
   run input args env = run input args env').
Proof.
  split.
  - intros [u Hu] Htoken. unfold ClawdInvoke.run. now rewrite Hu, Htoken.
  - intros [t Ht] Hurl. unfold ClawdInvoke.run. now rewrite Ht, Hurl.
Qed.

(** X18.  Whenever a request is sent it is the only one, it is sent
    after the input was drained, and it is well formed: the url, the tool
    and the action are non-empty, the method is POST, the body carries the
    tool, the action and the arguments, and an [authorization] header is
    there exactly when the token is non-empty. *)
Theorem request_is_well_formed (input : list Json.t) (args : Args) (env : Env)
    (r : Request) :
  In (Fetch r) (Eff.events (run input args env)) ->
  Eff.events (run input args env) = map Pull input ++ [Fetch r] /\
  trim (orElse (url args) (CLAWD_URL env)) <> "" /\
  Js.truthy (tool args) = true /\ Js.truthy (action args) = true /\
  method r = "POST" /\
  headers r
  = ("content-type", "application/json") ::
    (if String.eqb (trim (orElse (token args) (CLAWD_TOKEN env))) "" then []
     else [("authorization", "Bearer " +:+ trim (orElse (token args) (CLAWD_TOKEN env)))]) /\
  exists toolArgs,
    body r = JObj [("tool", JStr (default "" (tool args)));
                   ("action", JStr (default "" (action args)));
                   ("args", toolArgs)].
Proof.
  unfold Eff.events. intros Hin.
  destruct (run_cases input args env)
    as [[err Hrun] | (request & toolArgs & Hurl & Htool & Haction & _ & _ & Hm & Hh & Hb & Hrun)];
    rewrite Hrun in Hin |- *; cbn [fst] in Hin |- *.
  - now apply fetch_not_pulled in Hin.
  - apply in_app_or in Hin as [Hin | [Heq | []]]; [now apply fetch_not_pulled in Hin|].
    injection Heq as <-. repeat split; try assumption. now exists toolArgs.
Qed.

(** X19.  A successful response becomes the output: an empty body gives
    the single item [null], a JSON array gives its elements, any other
    JSON value gives that one item, and a body that is not JSON makes the
    command throw. *)
Theorem response_becomes_output (input : list Json.t) (args : Args) (env : Env)
    (r : Request) (res : Response) (text : string) :
  In (Fetch r) (Eff.events (run input args env)) ->
  fetch r = inr res -> resOk res = true -> resText res = inr text ->
  Eff.outcome (run input args env)
  = if String.eqb text "" then inr [JNull]
    else
      match JSON_parse text with
      | Some (JArr xs) => inr xs
      | Some parsed => inr [parsed]
      | None => inl (Js.mkError "clawd.invoke expected JSON response")
      end.
Proof.
  unfold Eff.events, Eff.outcome. intros Hin Hfetch Hok Htext.
  destruct (run_cases input args env) as [[err Hrun] | (request & toolArgs & Hrest)];
    [rewrite Hrun in Hin; now apply fetch_not_pulled in Hin|].
  destruct Hrest as (_ & _ & _ & _ & _ & _ & _ & _ & Hrun).
  rewrite Hrun in Hin |- *. cbn [fst snd] in Hin |- *.
  apply in_app_or in Hin as [Hin | [Heq | []]]; [now apply fetch_not_pulled in Hin|].
  injection Heq as <-. rewrite Hfetch, Htext, Hok. cbn [negb].
  destruct (String.eqb text ""); [reflexivity|].
  destruct (JSON_parse text) as [[]|]; reflexivity.
Qed.

Lemma substring_length (n m : nat) (s : string) :
  (String.length (String.substring n m s) <= m)%nat.
Proof.
  revert n m. induction s as [|c s IH]; intros n m.
  - destruct n, m; cbn; lia.
  - destruct n as [|n].
    + destruct m as [|m]; cbn; [lia|]. specialize (IH 0%nat m). lia.
    + cbn. apply IH.
Qed.

Lemma substring_prefix (m : nat) (s : string) :
  String.prefix (String.substring 0 m s) s = true.
Proof.
  revert m. induction s as [|c s IH]; intros m.
  - destruct m; reflexivity.
  - destruct m as [|m]; [reflexivity|]. cbn.
    destruct (ascii_dec c c); [apply IH | contradiction].
Qed.

(** X20.  A response that is not ok makes the command throw, whatever
    its body: the error names the status and quotes at most the first 400
    characters of the body, and no output is produced. *)
Theorem failed_response_throws (input : list Json.t) (args : Args) (env : Env)
    (r : Request) (res : Response) (text : string) :
  In (Fetch r) (Eff.events (run input args env)) ->
  fetch r = inr res -> resOk res = false -> resText res = inr text ->
  exists quoted,
    Eff.outcome (run input args env)
    = inl (Js.mkError ("clawd.invoke failed (" +:+ showStatus (resStatus res) +:+ "): "
                       +:+ quoted)) /\
    String.prefix quoted text = true /\ (String.length quoted <= 400)%nat.
Proof.
  unfold Eff.events, Eff.outcome. intros Hin Hfetch Hok Htext.
  destruct (run_cases input args env) as [[err Hrun] | (request & toolArgs & Hrest)];
    [rewrite Hrun in Hin; now apply fetch_not_pulled in Hin|].
  destruct Hrest as (_ & _ & _ & _ & _ & _ & _ & _ & Hrun).
  rewrite Hrun in Hin |- *. cbn [fst snd] in Hin |- *.
  apply in_app_or in Hin as [Hin | [Heq | []]]; [now apply fetch_not_pulled in Hin|].
  injection Heq as <-. rewrite Hfetch, Htext, Hok. cbn [negb].
  exists (String.substring 0 400 text). split; [reflexivity|]. split.
  - apply substring_prefix.
  - apply substring_length.
Qed.

End Command.

End ClawdInvokeFacts.

(** ** The recipe registry *)

Module RecipesFacts.
Import Json Recipes.

Lemma orDefault_not_null (x : option Json.t) (d : Json.t) :
  d <> JNull -> orDefault x d <> JNull.
Proof. intros Hd. destruct x as [[]|]; cbn; congruence. Qed.

Section Registry.
Variable prMonitor : Recipe.
Variable prMonitorNotify : Recipe.

Local Abbreviation listRecipes := (Recipes.listRecipes prMonitor prMonitorNotify).
Local Abbreviation getRecipe := (Recipes.getRecipe prMonitor prMonitorNotify).

(** X21.  No field of a listing is ever null: a description, a
    requirement list or an argument table that is missing or null is
    listed as the empty string, the empty array or the empty object. *)
Theorem listings_have_no_null_field :
  Forall (fun l => lDescription l <> JNull /\ lRequires l <> JNull /\ lArgs l <> JNull)
         listRecipes.
Proof.
  unfold Recipes.listRecipes, Recipes.recipes. cbn [map].
  repeat constructor; apply orDefault_not_null; discriminate.
Qed.

Lemma listing_fields (fn : Recipe) (k : string) :
  let l := {| name := k;
              lDescription := orDefault (field description fn) (JStr "");
              lRequires := orDefault (field requires fn) (JArr []);
              lArgs := orDefault (field args fn) (JObj []) |} in
  match meta fn with
  | None => lDescription l = JStr "" /\ lRequires l = JArr [] /\ lArgs l = JObj []
  | Some m =>
      (forall d, description m = Some d -> d <> JNull -> lDescription l = d) /\
      (forall r, requires m = Some r -> r <> JNull -> lRequires l = r) /\
      (forall a, args m = Some a -> a <> JNull -> lArgs l = a)
  end.
Proof.
  cbn zeta. unfold field. destruct (meta fn) as [m|]; [|repeat split].
  cbn [lDescription lRequires lArgs].
  repeat split; intros x -> Hx; destruct x; cbn; congruence.
Qed.

(** X22.  [listRecipes] and [getRecipe] agree: whatever the recipe
    functions are, the listings are those of [github.pr.monitor] and
    [github.pr.monitor.notify], in this order, and each listing describes
    the function [getRecipe] returns for its name, with that function's
    [meta] fields where they are set and the empty description, no
    requirements and no arguments for a function without [meta]. *)
Theorem listings_describe_recipes :
  map name listRecipes = ["github.pr.monitor"; "github.pr.monitor.notify"] /\
  Forall (fun l =>
            exists fn,
              getRecipe (name l) = Some (inl fn) /\
              match meta fn with
              | None => lDescription l = JStr "" /\ lRequires l = JArr [] /\ lArgs l = JObj []
              | Some m =>
                  (forall d, description m = Some d -> d <> JNull -> lDescription l = d) /\
                  (forall r, requires m = Some r -> r <> JNull -> lRequires l = r) /\
                  (forall a, args m = Some a -> a <> JNull -> lArgs l = a)
              end)
         listRecipes.
Proof.
  split; [reflexivity|].
  unfold Recipes.listRecipes, Recipes.recipes. cbn [map].
  constructor; [|constructor; [|constructor]].
  - exists prMonitor. split; [reflexivity | apply listing_fields].
  - exists prMonitorNotify. split; [reflexivity | apply listing_fields].
Qed.

End Registry.

End RecipesFacts.

(** ** The further statements on sample inputs *)

Module SampleFacts.
Import Json Model Cli Trace.

Lemma later_token_decodes :
  Token.decodeResumeToken
    (Some (Token.encodeToken (Token.payloadOf Samples.laterContinuation)))
  = inr Samples.laterContinuation.
Proof. vm_compute. reflexivity. Qed.

Lemma tool_run_ok_envelope_witness :
  stdoutOf (Eff.events (Cli.handleRun Scenario.parsePipeline Samples.plainEngine
                          Token.encodeToken Scenario.toolArgv))
  = [JsonText (JObj [("ok", JBool true); ("status", JStr "ok");
                     ("output", JArr [JNum 1; JNum 2]); ("requiresApproval", JNull)]);
     Text nl].
Proof.
  exact (CliMore.tool_run_ok_envelope Scenario.parsePipeline Samples.plainEngine
           Token.encodeToken Scenario.toolArgv [Scenario.pipelineText]
           [Scenario.execStage; Scenario.approveStage]
           [Scenario.execStage; Scenario.approveStage] Samples.plainResult
           eq_refl eq_refl eq_refl (or_introl eq_refl)).
Defined.

Lemma resume_runtime_error_witness :
  Eff.run (Cli.handleResume Samples.failingEngine Token.encodeToken
             Scenario.parseResumeArgs Token.decodeResumeToken Scenario.approveArgv)
  = ([EngineCall {| pipeline := [Scenario.jsonStage]; mode := "tool";
                    input := Some [JNum 1] |};
      Stdout (JsonText
                (JObj [("ok", JBool false);
                       ("error", JObj [("type", JStr "runtime_error");
                                       ("message", JStr "boom")])]));
      Stdout (Text nl);
      ExitCode 1],
     inr tt).
Proof.
  exact (CliMore.resume_runtime_error Samples.failingEngine Token.encodeToken
           Scenario.parseResumeArgs Token.decodeResumeToken Scenario.approveArgv
           (Some Scenario.token) Scenario.continuation [] (Js.mkError "boom")
           eq_refl ScenarioFacts.scenario_token_decodes eq_refl).
Defined.

Lemma resumed_halt_token_witness :
  stdoutOf (Eff.events (Cli.handleResume Samples.haltingEngine Token.encodeToken
                          Scenario.parseResumeArgs Token.decodeResumeToken
                          Scenario.approveArgv))
  = [JsonText
       (JObj [("ok", JBool true); ("status", JStr "needs_approval");
              ("output", JArr []);
              ("requiresApproval",
               JObj (setProp "resumeToken"
                       (JStr (Token.encodeToken
                                {| v := 1;
                                   tpPipeline := [Scenario.jsonStage];
                                   tpResumeAtIndex := 1 + 1;
                                   tpItems := Some (JArr [JNum 1]);
                                   tpPrompt := Some (JStr "ok?") |}))
                       Scenario.approval))]);
     Text nl].
Proof.
  exact (CliMore.resumed_halt_token Samples.haltingEngine Token.encodeToken
           Scenario.parseResumeArgs Token.decodeResumeToken Scenario.approveArgv
           (Some Scenario.token) Scenario.continuation [Scenario.jsonStage]
           Scenario.haltedResult Scenario.approval
           eq_refl ScenarioFacts.scenario_token_decodes eq_refl eq_refl eq_refl eq_refl).
Defined.

Lemma chained_resume_slices_once_witness :
  engineCalls (Eff.events (Cli.handleResume Scenario.runPipeline Token.encodeToken
                             Scenario.parseResumeArgs Token.decodeResumeToken
                             Samples.laterArgv))
  = [{| pipeline := [Scenario.jsonStage]; mode := "tool"; input := Some [JNum 1] |}].
Proof.
  exact (CliMore.chained_resume_slices_once Scenario.runPipeline Token.encodeToken
           Scenario.parseResumeArgs Token.decodeResumeToken Samples.laterArgv
           (Some (Token.encodeToken (Token.payloadOf Samples.laterContinuation)))
           Samples.earlierContinuation Samples.laterContinuation
           eq_refl later_token_decodes eq_refl ltac:(cbn; lia) ltac:(cbn; lia)).
Defined.

Lemma help_flag_wins_witness :
  Eff.run (Cli.runCli Scenario.parsePipeline Scenario.runPipeline Token.encodeToken
             Scenario.parseResumeArgs Token.decodeResumeToken Scenario.commandHelp
             ["run"; "--mode"; "tool"; Scenario.pipelineText; "--help"])
  = ([Stdout (Text helpText)], inr tt).
Proof.
  apply (CliMore.help_flag_wins Scenario.parsePipeline Scenario.runPipeline Token.encodeToken
           Scenario.parseResumeArgs Token.decodeResumeToken Scenario.commandHelp
           ["run"; "--mode"; "tool"; Scenario.pipelineText; "--help"]).
  right. right. reflexivity.
Defined.

Lemma help_topic_witness :
  Eff.run (Cli.runCli Scenario.parsePipeline Scenario.runPipeline Token.encodeToken
             Scenario.parseResumeArgs Token.decodeResumeToken Scenario.commandHelp
             ["help"; "nope"])
  = ([Stderr ("Unknown command: " +:+ "nope" +:+ nl); ExitCode 2], inr tt).
Proof.
  exact (CliMore.help_topic Scenario.parsePipeline Scenario.runPipeline Token.encodeToken
           Scenario.parseResumeArgs Token.decodeResumeToken Scenario.commandHelp
           ["nope"] eq_refl eq_refl).
Defined.

Lemma run_subcommand_optional_witness :
  Cli.runCli Scenario.parsePipeline Scenario.runPipeline Token.encodeToken
    Scenario.parseResumeArgs Token.decodeResumeToken Scenario.commandHelp
    ["run"; Scenario.pipelineText; "--mode=tool"]
  = Cli.runCli Scenario.parsePipeline Scenario.runPipeline Token.encodeToken
      Scenario.parseResumeArgs Token.decodeResumeToken Scenario.commandHelp
      [Scenario.pipelineText; "--mode=tool"].
Proof.
  apply (CliMore.run_subcommand_optional Scenario.parsePipeline Scenario.runPipeline
           Token.encodeToken Scenario.parseResumeArgs Token.decodeResumeToken
           Scenario.commandHelp Scenario.pipelineText ["--mode=tool"]); discriminate.
Defined.

Local Abbreviation invoke status text :=
  (ClawdInvoke.run Samples.trim Samples.newURL (Samples.respond status text) Json.parse).

Lemma invalid_arguments_send_nothing_witness :
  Eff.run (invoke 200 "[]" [JNum 7] Samples.invokeArgs Samples.noEnv)
  = ([ClawdInvoke.Pull (JNum 7)],
     inl (Js.mkError "clawd.invoke requires --url or CLAWD_URL")).
Proof.
  apply (ClawdInvokeFacts.invalid_arguments_send_nothing Samples.trim Samples.newURL
           (Samples.respond 200 "[]") Json.parse [JNum 7] Samples.invokeArgs Samples.noEnv).
  reflexivity.
Defined.

Lemma flags_override_environment_witness :
  invoke 200 "[]" [] {| ClawdInvoke.url := Some "http://localhost:3000";
                        ClawdInvoke.tool := Some "message";
                        ClawdInvoke.action := Some "send";
                        ClawdInvoke.token := None;
                        ClawdInvoke.argsJson := None |} Samples.noEnv
  = invoke 200 "[]" [] {| ClawdInvoke.url := Some "http://localhost:3000";
                          ClawdInvoke.tool := Some "message";
                          ClawdInvoke.action := Some "send";
                          ClawdInvoke.token := None;
                          ClawdInvoke.argsJson := None |}
      {| ClawdInvoke.CLAWD_URL := Some "http://elsewhere"; ClawdInvoke.CLAWD_TOKEN := None |}.
Proof.
  apply (proj1 (ClawdInvokeFacts.flags_override_environment Samples.trim Samples.newURL
                  (Samples.respond 200 "[]") Json.parse [] _ _ _)).
  - eexists. reflexivity.
  - reflexivity.
Defined.

Lemma request_is_well_formed_witness :
  Eff.events (invoke 200 "[]" [JNum 7] Samples.invokeArgs Samples.invokeEnv)
  = [ClawdInvoke.Pull (JNum 7); ClawdInvoke.Fetch Samples.invokeRequest] /\
  ClawdInvoke.method Samples.invokeRequest = "POST".
Proof.
  destruct (ClawdInvokeFacts.request_is_well_formed Samples.trim Samples.newURL
              (Samples.respond 200 "[]") Json.parse [JNum 7] Samples.invokeArgs
              Samples.invokeEnv Samples.invokeRequest ltac:(vm_compute; right; left; reflexivity))
    as (Hlog & _ & _ & _ & Hmethod & _).
  split; [exact Hlog | exact Hmethod].
Defined.

Lemma response_becomes_output_witness :
  Eff.outcome (invoke 200 "[1,2]" [JNum 7] Samples.invokeArgs Samples.invokeEnv)
  = inr [JNum 1; JNum 2].
Proof.
  exact (ClawdInvokeFacts.response_becomes_output Samples.trim Samples.newURL
           (Samples.respond 200 "[1,2]") Json.parse [JNum 7] Samples.invokeArgs
           Samples.invokeEnv Samples.invokeRequest _ "[1,2]"
           ltac:(vm_compute; right; left; reflexivity) eq_refl eq_refl eq_refl).
Defined.

Lemma failed_response_throws_witness :
  exists quoted,
    Eff.outcome (invoke 404 "not found" [JNum 7] Samples.invokeArgs Samples.invokeEnv)
    = inl (Js.mkError ("clawd.invoke failed (" +:+ "404" +:+ "): " +:+ quoted)) /\
    String.prefix quoted "not found" = true /\ (String.length quoted <= 400)%nat.
Proof.
  exact (ClawdInvokeFacts.failed_response_throws Samples.trim Samples.newURL
           (Samples.respond 404 "not found") Json.parse [JNum 7] Samples.invokeArgs
           Samples.invokeEnv Samples.invokeRequest _ "not found"
           ltac:(vm_compute; right; left; reflexivity) eq_refl eq_refl eq_refl).
Defined.

End SampleFacts.

(** ** The shape of tool-mode output *)

Module ToolOutput.
Import Json Model Cli Trace.

Lemma stderr_not_staged (s : string) (called : list Invocation) :
  ~ In (Stderr s) (map StageRun called).
Proof.
  induction called as [|st called IH]; cbn; [tauto|].
  intros [H|H]; [discriminate H | tauto].
Qed.

(** A log made of the engine call, the stages and one envelope line
    writes that line to standard output and nothing to standard error. *)
Lemma envelope_line (a : RunArgs) (called : list Invocation)
    (envelope : list (string * Json.t)) (exit : list Z) :
  let log := EngineCall a :: map StageRun called ++
             [Stdout (JsonText (JObj envelope)); Stdout (Text nl)] ++ map ExitCode exit in
  stdoutOf log = [JsonText (JObj envelope); Text nl] /\
  forall s, ~ In (Stderr s) log.
Proof.
  cbn zeta. split.
  - cbn [stdoutOf]. rewrite CliFacts.stdoutOf_app, CliFacts.stdoutOf_stages. cbn [app stdoutOf].
    induction exit as [|n exit IH]; [reflexivity | exact IH].
  - intros s [H|H]; [discriminate H|].
    apply in_app_or in H as [H|H]; [now apply stderr_not_staged in H|].
    destruct H as [H|[H|H]]; [discriminate H | discriminate H |].
    induction exit as [|n exit IH]; [contradiction|].
    destruct H as [H|H]; [discriminate H | auto].
Qed.

Section Handlers.
Variable parsePipeline : string -> Js.Result Pipeline.
Variable runPipeline : Engine.
Variable encodeToken : TokenPayload -> string.
Variable parseResumeArgs : list string -> Js.Result (option string * bool).
Variable decodeResumeToken : option string -> Js.Result ResumeContinuation.

Local Abbreviation handleRun := (Cli.handleRun parsePipeline runPipeline encodeToken).
Local Abbreviation handleResume :=
  (Cli.handleResume runPipeline encodeToken parseResumeArgs decodeResumeToken).

(** X23.  In tool mode the run subcommand writes to standard output one
    JSON object followed by one newline, and nothing to standard error,
    whether the pipeline fails to parse, the run fails, halts or
    completes. *)
Theorem tool_run_output_shape (argv rest : list string) :
  parseModeAndStrip argv = ("tool", rest) ->
  exists envelope,
    stdoutOf (Eff.events (handleRun argv)) = [JsonText (JObj envelope); Text nl] /\
    forall s, ~ In (Stderr s) (Eff.events (handleRun argv)).
Proof.
  intros Hmode. unfold Eff.events, Eff.run, Cli.handleRun. rewrite Hmode.
  destruct (parsePipeline (Js.join " " rest)) as [err|pl].
  - eexists. split; [reflexivity|].
    intros s [H|[H|[H|[]]]]; discriminate H.
  - set (a := {| pipeline := pl; mode := "tool"; input := None |}).
    destruct (runPipeline a) as [called [err|output]] eqn:Hrun.
    + CliFacts.step_engine Hrun. rewrite <- !app_assoc. cbn [app fst].
      unfold errorEnvelope. eexists. exact (envelope_line a called _ [1]).
    + CliFacts.step_engine Hrun.
      destruct (CliFacts.reportToolResult_run encodeToken pl output
                  (EngineCall a :: map StageRun called)) as (envelope & _ & Henv).
      rewrite Henv. cbn [fst app]. exists envelope.
      exact (envelope_line a called envelope []).
Qed.

(** X24.  A resume whose arguments are accepted and whose token decodes
    writes to standard output one JSON object followed by one newline, and
    nothing to standard error, whether it is declined, fails, halts again
    or completes. *)
Theorem resume_output_shape (argv : list string) (token : option string)
    (approved : bool) (c : ResumeContinuation) :
  parseResumeArgs argv = inr (token, approved) ->
  decodeResumeToken token = inr c ->
  exists envelope,
    stdoutOf (Eff.events (handleResume argv)) = [JsonText (JObj envelope); Text nl] /\
    forall s, ~ In (Stderr s) (Eff.events (handleResume argv)).
Proof.
  intros Hargs Hdecode.
  assert (Hshape :
    (exists envelope exit a called,
       Eff.events (handleResume argv)
       = EngineCall a :: map StageRun called ++
         [Stdout (JsonText (JObj envelope)); Stdout (Text nl)] ++ map ExitCode exit) \/
    Eff.events (handleResume argv)
    = [Stdout (JsonText cancelledEnvelope); Stdout (Text nl)]).
  { destruct approved; [left | right];
      unfold Eff.events, Eff.run, Cli.handleResume, Eff.bind at 1, Eff.lift at 1;
      rewrite Hargs; unfold Eff.bind at 1, Eff.lift at 1; rewrite Hdecode;
      cbn [negb]; [|reflexivity].
    set (a := {| pipeline := Js.slice (rcPipeline c) (resumeAtIndex c);
                 mode := "tool"; input := Some (rcItems c) |}).
    destruct (runPipeline a) as [called [err|output]] eqn:Hrun.
    - CliFacts.step_engine Hrun. rewrite <- !app_assoc. cbn [app fst].
      unfold errorEnvelope. eexists _, [1], a, called. reflexivity.
    - CliFacts.step_engine Hrun.
      destruct (CliFacts.reportToolResult_run encodeToken
                  (Js.slice (rcPipeline c) (resumeAtIndex c)) output
                  (EngineCall a :: map StageRun called)) as (envelope & _ & Henv).
      rewrite Henv. cbn [fst app]. exists envelope, [], a, called. reflexivity. }
  destruct Hshape as [(envelope & exit & a & called & ->) | ->].
  - exists envelope. exact (envelope_line a called envelope exit).
  - eexists. split; [reflexivity|].
    intros s [H|[H|[]]]; discriminate H.
Qed.

End Handlers.

Lemma tool_run_output_shape_witness :
  exists envelope,
    stdoutOf (Eff.events (Cli.handleRun Scenario.parsePipeline Samples.failingEngine
                            Token.encodeToken Scenario.toolArgv))
    = [JsonText (JObj envelope); Text nl] /\
    forall s, ~ In (Stderr s)
                (Eff.events (Cli.handleRun Scenario.parsePipeline Samples.failingEngine
                               Token.encodeToken Scenario.toolArgv)).
Proof.
  exact (tool_run_output_shape Scenario.parsePipeline Samples.failingEngine Token.encodeToken
           Scenario.toolArgv [Scenario.pipelineText] eq_refl).
Defined.

Lemma resume_output_shape_witness :
  exists envelope,
    stdoutOf (Eff.events (Cli.handleResume Scenario.runPipeline Token.encodeToken
                            Scenario.parseResumeArgs Token.decodeResumeToken
                            Scenario.approveArgv))
    = [JsonText (JObj envelope); Text nl] /\
    forall s, ~ In (Stderr s)
                (Eff.events (Cli.handleResume Scenario.runPipeline Token.encodeToken
                               Scenario.parseResumeArgs Token.decodeResumeToken
                               Scenario.approveArgv)).
Proof.
  exact (resume_output_shape Scenario.runPipeline Token.encodeToken
           Scenario.parseResumeArgs Token.decodeResumeToken Scenario.approveArgv
           (Some Scenario.token) true Scenario.continuation
           eq_refl ScenarioFacts.scenario_token_decodes).
Defined.

End ToolOutput.
